(** * CapsNet-PyTorch: the loss functions of [capsule_network.py]

    A shallow embedding of [CapsuleNetwork.__init__], [loss], [margin_loss],
    [reconstruction_loss] and [reconstruct], and the properties of the
    margin loss, the capsule masking and the reduction modes.

    Conventions of the embedding.
    - A tensor of rank k is a k-fold nested list; its shape is checked by the
      boolean predicates [has_shape2] .. [has_shape4].
    - Tensor elements are read as real numbers: rounding, NaN and infinities
      of the 32-bit floats are outside the model.
    - A Python exception is a value [Raise e] of the [result] type; the
      tensor library's own errors are [RuntimeError]s.
    - A 0-dim tensor and a one-element tensor holding a loss are both read
      through their single value.
    - Moving a tensor to a device ([.cuda]) does not change its elements. *)

From Stdlib Require Import String List ZArith Reals Lra Lia Bool PeanoNat.
Import ListNotations.

Open Scope R_scope.

(** ** Exceptions *)

Inductive exception : Type :=
| AssertionError (msg : string)
| RuntimeError (msg : string)
| IndexError (msg : string)
| TypeError (msg : string)
| AttributeError (msg : string)
| ValueError (msg : string).

Inductive result (A : Type) : Type :=
| Ok (a : A)
| Raise (e : exception).

Arguments Ok {A} a.
Arguments Raise {A} e.

Definition bind {A B : Type} (m : result A) (k : A -> result B) : result B :=
  match m with
  | Ok a => k a
  | Raise e => Raise e
  end.

Notation "x <- m ;; k" := (bind m (fun x => k))
  (at level 61, m at next level, right associativity).

Fixpoint mapM {A B : Type} (f : A -> result B) (l : list A) : result (list B) :=
  match l with
  | [] => Ok []
  | a :: l' => b <- f a ;; bs <- mapM f l' ;; Ok (b :: bs)
  end.

Definition returns {A : Type} (m : result A) : Prop := exists a, m = Ok a.

Definition raises_RuntimeError {A : Type} (m : result A) : Prop :=
  exists msg, m = Raise (RuntimeError msg).

(** ** The tensor operations the program uses *)

Module torch.

Abbreviation tensor1 := (list R).
Abbreviation tensor2 := (list (list R)).
Abbreviation tensor3 := (list (list (list R))).
Abbreviation tensor4 := (list (list (list (list R)))).

(** [t.size(0)] *)
Definition size0 {A : Type} (t : list A) : nat := length t.

(** [torch.zeros(n)] *)
Definition zeros (n : nat) : tensor1 := repeat 0 n.

(** [torch.zeros(t.size())] for a rank-2 tensor [t] *)
Definition zeros_like2 (t : tensor2) : tensor2 :=
  map (fun row => zeros (length row)) t.

(** Elementwise operations with a Python scalar. *)
Definition map2d (f : R -> R) (t : tensor2) : tensor2 := map (map f) t.
Definition map3d (f : R -> R) (t : tensor3) : tensor3 := map (map2d f) t.

(** [t ** 2] *)
Definition pow_2 (x : R) : R := x ^ 2.

(** [t.sum()] of a rank-1 tensor *)
Definition sum (t : tensor1) : R := fold_right Rplus 0 t.

(** [t.mean()] of a rank-1 tensor *)
Definition mean (t : tensor1) : R := sum t / INR (length t).

(** [t.sum(dim=1)] of a rank-2 tensor *)
Definition sum_dim1 (t : tensor2) : tensor1 := map sum t.

(** [t.sum(dim=2)] of a rank-3 tensor *)
Definition sum_dim2 (t : tensor3) : tensor2 := map (map sum) t.

(** [t.sum(dim=2, keepdim=True)] of a rank-3 tensor *)
Definition sum_dim2_keepdim (t : tensor3) : tensor3 :=
  map (map (fun v => [sum v])) t.

(** Broadcasting along one axis: equal sizes are paired, a size of 1 is
    repeated, anything else is the library's size-mismatch error. *)
Definition broadcast {A B C : Type} (f : A -> B -> result C)
    (a : list A) (b : list B) : result (list C) :=
  if (length a =? length b)%nat then
    mapM (fun p => f (fst p) (snd p)) (combine a b)
  else
    match a, b with
    | [x], _ => mapM (f x) b
    | _, [y] => mapM (fun x => f x y) a
    | _, _ =>
        Raise (RuntimeError
          "The size of tensor a must match the size of tensor b at non-singleton dimension")
    end.

Definition lift2 (f : R -> R -> R) (x y : R) : result R := Ok (f x y).

Definition broadcast1 (f : R -> R -> R) : tensor1 -> tensor1 -> result tensor1 :=
  broadcast (lift2 f).
Definition broadcast2 (f : R -> R -> R) : tensor2 -> tensor2 -> result tensor2 :=
  broadcast (broadcast1 f).
Definition broadcast3 (f : R -> R -> R) : tensor3 -> tensor3 -> result tensor3 :=
  broadcast (broadcast2 f).
Definition broadcast4 (f : R -> R -> R) : tensor4 -> tensor4 -> result tensor4 :=
  broadcast (broadcast3 f).

(** [torch.max(t, z)] for a rank-3 [t] and a rank-1 [z]: [z] is aligned with
    the last axis of [t] and repeated along the two leading ones. *)
Definition max_3_1 (t : tensor3) (z : tensor1) : result tensor3 :=
  mapM (mapM (fun row => broadcast1 Rmax row z)) t.

(** [a * b], [a + b] of rank-2 tensors and [a - b] of rank-4 tensors *)
Definition mul2 : tensor2 -> tensor2 -> result tensor2 := broadcast2 Rmult.
Definition add2 : tensor2 -> tensor2 -> result tensor2 := broadcast2 Rplus.
Definition sub4 : tensor4 -> tensor4 -> result tensor4 := broadcast4 Rminus.

(** The elements of a tensor in row-major order. *)
Definition flatten2 (t : tensor2) : list R := concat t.
Definition flatten3 (t : tensor3) : list R := concat (map flatten2 t).
Definition flatten4 (t : tensor4) : list R := concat (map flatten3 t).

(** [count] consecutive rows of [width] elements each. *)
Fixpoint chunks (count width : nat) (l : list R) : tensor2 :=
  match count with
  | O => []
  | S count' => firstn width l :: chunks count' width (skipn width l)
  end.

(** [t.view(batch_size, -1)] on the row-major elements of [t]: the second
    size is inferred; it cannot be inferred when [batch_size] is 0 and does
    not exist when [batch_size] does not divide the number of elements. *)
Definition view_rows (elements : list R) (batch_size : nat) : result tensor2 :=
  if (batch_size =? 0)%nat then
    Raise (RuntimeError
      "cannot reshape tensor into shape [0, -1] because the unspecified dimension size -1 can be any value and is ambiguous")
  else if (length elements mod batch_size =? 0)%nat then
    Ok (chunks batch_size (length elements / batch_size) elements)
  else
    Raise (RuntimeError "shape is invalid for input size").

Definition view3 (t : tensor3) (batch_size : nat) : result tensor2 :=
  view_rows (flatten3 t) batch_size.
Definition view4 (t : tensor4) (batch_size : nat) : result tensor2 :=
  view_rows (flatten4 t) batch_size.

(** The index of the first maximal element, scanning from position [i]
    with the best element so far [best] found at [best_i]. *)
Fixpoint argmax_from (best_i : nat) (best : R) (i : nat) (l : list R) : nat :=
  match l with
  | [] => best_i
  | x :: l' =>
      if Rlt_dec best x then argmax_from i x (S i) l'
      else argmax_from best_i best (S i) l'
  end.

(** The index returned by [t.max(dim=1)] for one row of [t]: of several
    maximal elements the library reports the first; an empty row is an error. *)
Definition argmax (row : tensor1) : result nat :=
  match row with
  | [] =>
      Raise (RuntimeError
        "max(): Expected reduction dim 1 to have non-zero size.")
  | x :: l => Ok (argmax_from 0 x 1 l)
  end.

(** The second component of [t.max(dim=1)] for a rank-2 tensor. *)
Definition max_dim1_indices (t : tensor2) : result (list nat) := mapM argmax t.

(** [t[i]] and [t[i] = x] *)
Definition getitem {A : Type} (t : list A) (i : nat) : result A :=
  match nth_error t i with
  | Some x => Ok x
  | None => Raise (IndexError "index out of range")
  end.

Fixpoint setitem {A : Type} (t : list A) (i : nat) (x : A) : result (list A) :=
  match t, i with
  | [], _ => Raise (IndexError "index out of range")
  | _ :: t', O => Ok (x :: t')
  | y :: t', S i' => t'' <- setitem t' i' x ;; Ok (y :: t'')
  end.

(** [torch.stack(ts, dim=0)] of a Python list whose slots may still hold
    [None]. *)
Definition stack {A : Type} (ts : list (option A)) : result (list A) :=
  match ts with
  | [] => Raise (RuntimeError "stack expects a non-empty TensorList")
  | _ =>
      mapM (fun slot =>
              match slot with
              | Some t => Ok t
              | None => Raise (TypeError "expected Tensor as element of sequence, but got NoneType")
              end) ts
  end.

(** [t.cuda(device)] *)
Definition cuda {A : Type} (t : A) (device : Z) : A := t.

(** Shapes. *)
Definition has_shape1 (t : tensor1) (n : nat) : bool := (length t =? n)%nat.
Definition has_shape2 (t : tensor2) (m n : nat) : bool :=
  (length t =? m)%nat && forallb (fun r => has_shape1 r n) t.
Definition has_shape3 (t : tensor3) (b m n : nat) : bool :=
  (length t =? b)%nat && forallb (fun s => has_shape2 s m n) t.
Definition has_shape4 (t : tensor4) (b c h w : nat) : bool :=
  (length t =? b)%nat && forallb (fun s => has_shape3 s c h w) t.

End torch.

Import torch.

(** ** The network object *)

(** [decoder.py], [conv_layer.py] and [primary_caps.py] are not part of the
    sources.  A decoder is a black box from the flattened masked capsules
    to a reconstructed image batch (it may raise); the two feature layers
    take no part in the loss functions. *)
Record Decoder : Type := { Decoder_forward : tensor2 -> result tensor4 }.

Inductive Conv1 : Type := Conv1_new.
Inductive PrimaryCaps : Type := PrimaryCaps_new.

Record DigitCaps : Type := {
  routing_iters : Z;
  DigitCaps_gpu : Z
}.

Record CapsuleNetwork : Type := {
  gpu : Z;
  has_reconstruction : bool;
  conv1 : Conv1;
  primary_caps : PrimaryCaps;
  digit_caps : DigitCaps;
  decoder : option Decoder
}.

(** Modelled from the spec: [digit_caps.py], whose [DigitCaps.__init__]
    receives [routing_iters], is missing.  The spec requires that a
    non-positive [routing_iters] is rejected at construction time. *)
Definition DigitCaps_init (routing_iters gpu : Z) : result DigitCaps :=
  if (routing_iters <=? 0)%Z then
    Raise (ValueError "routing_iters must be a positive integer")
  else
    Ok {| routing_iters := routing_iters; DigitCaps_gpu := gpu |}.

(** [CapsuleNetwork.__init__]; [fresh_decoder] is the value of [Decoder()]. *)
Definition CapsuleNetwork_init (fresh_decoder : Decoder)
    (routing_iters : Z) (reconstruct : bool) (gpu : Z) : result CapsuleNetwork :=
  let conv1 := Conv1_new in
  let primary_caps := PrimaryCaps_new in
  digit_caps <- DigitCaps_init routing_iters gpu ;;
  Ok {| gpu := gpu;
        has_reconstruction := reconstruct;
        conv1 := conv1;
        primary_caps := primary_caps;
        digit_caps := digit_caps;
        decoder := if reconstruct then Some fresh_decoder else None |}.

(** ** The loss functions *)

(** [CapsuleNetwork.margin_loss] *)
Definition margin_loss (self : CapsuleNetwork) (input : tensor3)
    (target : tensor2) (size_average : bool) : result R :=
  let batch_size := size0 input in
  let v_mag := map3d sqrt (sum_dim2_keepdim (map3d pow_2 input)) in
  let zero := zeros 1 in
  let zero := if (0 <=? gpu self)%Z then cuda zero (gpu self) else zero in
  let m_plus := 0.9 in
  let m_minus := 0.1 in
  l <- max_3_1 (map3d (fun x => m_plus - x) v_mag) zero ;;
  l <- view3 l batch_size ;;
  let max_l := map2d pow_2 l in
  r <- max_3_1 (map3d (fun x => x - m_minus) v_mag) zero ;;
  r <- view3 r batch_size ;;
  let max_r := map2d pow_2 r in
  let loss_lambda := 0.5 in
  let T_c := target in
  present <- mul2 T_c max_l ;;
  absent <- mul2 (map2d (fun x => loss_lambda * x) (map2d (fun x => 1.0 - x) T_c)) max_r ;;
  L_c <- add2 present absent ;;
  let L_c := sum_dim1 L_c in
  let L_c := if size_average then mean L_c else sum L_c in
  Ok L_c.

(** One round of the masking loop of [reconstruct]: the body of
    [for batch_idx in range(batch_size)], acting on the Python list
    [all_masked]. *)
Definition mask_sample (self : CapsuleNetwork) (input : tensor3)
    (v_max_index : list nat) (all_masked : list (option tensor2))
    (batch_idx : nat) : result (list (option tensor2)) :=
  input_batch <- getitem input batch_idx ;;
  let batch_masked := zeros_like2 input_batch in
  let batch_masked :=
    if (0 <=? gpu self)%Z then cuda batch_masked (gpu self) else batch_masked in
  winner <- getitem v_max_index batch_idx ;;
  capsule <- getitem input_batch winner ;;
  batch_masked <- setitem batch_masked winner capsule ;;
  setitem all_masked batch_idx (Some batch_masked).

Fixpoint for_each {S : Type} (body : S -> nat -> result S) (range : list nat)
    (s : S) : result S :=
  match range with
  | [] => Ok s
  | i :: range' => s' <- body s i ;; for_each body range' s'
  end.

(** The masking step of [reconstruct], up to and including [torch.stack]. *)
Definition mask_capsules (self : CapsuleNetwork) (input : tensor3) : result tensor3 :=
  let v_mag := map2d sqrt (sum_dim2 (map3d pow_2 input)) in
  v_max_index <- max_dim1_indices v_mag ;;
  let batch_size := size0 input in
  let all_masked := repeat None batch_size in
  all_masked <-
    for_each (mask_sample self input v_max_index) (seq 0 batch_size) all_masked ;;
  stack all_masked.

Definition reconstruction_disabled : string :=
  "Reconstruction path is disabled. For the reconstruction, configure `reconstruct=True` of CapsuleNetwork.".

(** [CapsuleNetwork.reconstruct] *)
Definition reconstruct (self : CapsuleNetwork) (input : tensor3) : result tensor4 :=
  if negb (has_reconstruction self) then
    Raise (AssertionError reconstruction_disabled)
  else
    let batch_size := size0 input in
    masked <- mask_capsules self input ;;
    masked <- view3 masked batch_size ;;
    match decoder self with
    | Some d => Decoder_forward d masked
    | None =>
        Raise (AttributeError "'CapsuleNetwork' object has no attribute 'decoder'")
    end.

(** [CapsuleNetwork.reconstruction_loss] *)
Definition reconstruction_loss (self : CapsuleNetwork) (images : tensor4)
    (input : tensor3) (size_average : bool) : result R :=
  let batch_size := size0 images in
  reconstructed <- reconstruct self input ;;
  error <- sub4 reconstructed images ;;
  error <- view4 error batch_size ;;
  let error := map2d pow_2 error in
  let error := sum_dim1 error in
  let error := if size_average then mean error else sum error in
  let rec_loss_weight := 0.0005 in
  let error := error * rec_loss_weight in
  Ok error.

(** The value of a one-element tensor. *)
Definition item (t : tensor1) : R := nth 0 t 0.

(** [CapsuleNetwork.loss]: the triple (loss, margin_loss, reconstruction_loss) *)
Definition loss (self : CapsuleNetwork) (images : tensor4) (input : tensor3)
    (target : tensor2) (size_average : bool) : result (R * R * R) :=
  margin <- margin_loss self input target size_average ;;
  reconstruction <-
    (if has_reconstruction self then
       reconstruction_loss self images input size_average
     else
       let zero := zeros 1 in
       let zero := if (0 <=? gpu self)%Z then cuda zero (gpu self) else zero in
       Ok (item zero)) ;;
  let total := margin + reconstruction in
  Ok (total, margin, reconstruction).

(** ** The specification's formulas *)

Definition zip_with {A B C : Type} (f : A -> B -> C) (a : list A) (b : list B) : list C :=
  map (fun p => f (fst p) (snd p)) (combine a b).

(** The Euclidean norm of a capsule vector. *)
Definition norm (v : tensor1) : R := sqrt (sum (map pow_2 v)).

(** The margin loss of one class, for its target entry and capsule norm. *)
Definition class_loss (T_c v_mag : R) : R :=
  T_c * (Rmax 0 (0.9 - v_mag)) ^ 2 + 0.5 * (1 - T_c) * (Rmax 0 (v_mag - 0.1)) ^ 2.

(** The class losses of one sample, summed over the classes. *)
Definition sample_loss (capsules : tensor2) (T : tensor1) : R :=
  sum (zip_with (fun v T_c => class_loss T_c (norm v)) capsules T).

(** Reduction over the batch: the mean or the sum of the per-sample values. *)
Definition reduce (size_average : bool) (per_sample : list R) : R :=
  if size_average then sum per_sample / INR (length per_sample)
  else sum per_sample.

Definition margin_loss_spec (input : tensor3) (target : tensor2)
    (size_average : bool) : R :=
  reduce size_average (zip_with sample_loss input target).

(** [k] is an argmax of [l]: the position of a maximal element, and the
    first such position. *)
Definition is_first_max (l : list R) (k : nat) : Prop :=
  exists m, nth_error l k = Some m /\
    (forall j x, nth_error l j = Some x -> x <= m) /\
    (forall j x, (j < k)%nat -> nth_error l j = Some x -> x < m).

(** The index [t.max(dim=1)] gives for a row. *)
Definition argmax_index (row : tensor1) : nat :=
  match row with
  | [] => O
  | x :: l => argmax_from 0 x 1 l
  end.

(** The winning capsule of a sample. *)
Definition winner (capsules : tensor2) : nat := argmax_index (map norm capsules).

(** A sample with every capsule but the winner's replaced by zeros. *)
Definition mask_winner (capsules : tensor2) : tensor2 :=
  zip_with (fun j v => if (j =? winner capsules)%nat then v else zeros (length v))
    (seq 0 (length capsules)) capsules.

(** The sum of the squared pixel-wise differences of one sample. *)
Definition squared_error (reconstructed image : tensor3) : R :=
  sum (zip_with (fun x y => (x - y) ^ 2) (flatten3 reconstructed) (flatten3 image)).

Definition reconstruction_loss_spec (reconstructed images : tensor4)
    (size_average : bool) : R :=
  reduce size_average (zip_with squared_error reconstructed images) * 0.0005.

(** [t] with the element at position [i] replaced by [x]. *)
Definition update {A : Type} (t : list A) (i : nat) (x : A) : list A :=
  firstn i t ++ x :: skipn (S i) t.

(** The one-hot target of class [c] among [n] classes. *)
Definition one_hot (n c : nat) : tensor1 :=
  map (fun j => if (j =? c)%nat then 1 else 0) (seq 0 n).

(** A sample meets both margins for its target class [c]: the capsule of
    class [c] is at least 0.9 long and every other capsule at most 0.1. *)
Definition margins_met (n : nat) (capsules : tensor2) (T : tensor1) : Prop :=
  exists c, (c < n)%nat /\ T = one_hot n c /\
    forall j v, nth_error capsules j = Some v ->
      if (j =? c)%nat then 0.9 <= norm v else norm v <= 0.1.

(** The flattened masked capsules handed to the decoder. *)
Definition masked_capsules (input : tensor3) : tensor2 :=
  map (fun capsules => flatten2 (mask_winner capsules)) input.

(** The same network with another [decoder] attribute. *)
Definition with_decoder (self : CapsuleNetwork) (d : option Decoder) : CapsuleNetwork :=
  {| gpu := gpu self; has_reconstruction := has_reconstruction self;
     conv1 := conv1 self; primary_caps := primary_caps self;
     digit_caps := digit_caps self; decoder := d |}.

(** The size that two broadcastable sizes are broadcast to. *)
Definition broadcast_size (m n : nat) : nat := if (m =? 1)%nat then n else m.

(** ** Sample data *)

(** A decoder that draws the same 1 x 1 x 2 image for every sample. *)
Definition flat_decoder : Decoder :=
  {| Decoder_forward := fun masked => Ok (map (fun _ => [[[0.5; 0.5]]]) masked) |}.

Definition net_reconstructing : CapsuleNetwork :=
  {| gpu := 0; has_reconstruction := true; conv1 := Conv1_new;
     primary_caps := PrimaryCaps_new;
     digit_caps := {| routing_iters := 3; DigitCaps_gpu := 0 |};
     decoder := Some flat_decoder |}.

Definition net_plain : CapsuleNetwork :=
  {| gpu := (-1); has_reconstruction := false; conv1 := Conv1_new;
     primary_caps := PrimaryCaps_new;
     digit_caps := {| routing_iters := 3; DigitCaps_gpu := (-1) |};
     decoder := None |}.

(** One sample, two classes, capsules of norms 0.95 and 0.05, target class 0. *)
Definition scenario_input : tensor3 := [[[0.95]; [0.05]]].
Definition scenario_target : tensor2 := [[1; 0]].
Definition scenario_images : tensor4 := [[[[0.25; 0.75]]]].
Definition other_images : tensor4 := [[[[1; 1]]]].

(** Ten zero capsules of dimension 16, and a target with a single column. *)
Definition zero_capsules : tensor3 := [repeat (zeros 16) 10].
Definition narrow_target : tensor2 := [[1]].

(** A target with three columns. *)
Definition wide_target : tensor2 := [[1; 0; 0]].

(** ** Predicates on tensor entries *)

(** Every entry of a rank-2 tensor satisfies [P]. *)
Definition entries2 (P : R -> Prop) (t : tensor2) : Prop := Forall (Forall P) t.

(** A target entry between 0 and 1, as the entries of a one-hot or of a
    smoothed label are. *)
Definition in_unit_interval (x : R) : Prop := 0 <= x <= 1.

(** Every row of a target is the one-hot vector of some class. *)
Definition one_hot_rows (n : nat) (target : tensor2) : Prop :=
  Forall (fun T => exists c, (c < n)%nat /\ T = one_hot n c) target.

(** The scenario's capsules with the first one pointing the other way, and
    a second batch of one sample. *)
Definition flipped_input : tensor3 := [[[-0.95]; [0.05]]].
Definition second_input : tensor3 := [[[0.5]; [0.3]]].
Definition second_target : tensor2 := [[0; 1]].

(** ** Tactics *)

(** From [(x <- m ;; k) = Ok v] in [H]: the value [m] returned. *)
Ltac bind_ok H x E :=
  match type of H with
  | bind ?m _ = Ok _ =>
      destruct m as [x|] eqn:E; [cbn [bind] in H | discriminate H]
  end.

(** ** Lists, [mapM] and shapes *)

Lemma mapM_map {A B : Type} (f : A -> result B) (g : A -> B) (l : list A) :
  (forall x, In x l -> f x = Ok (g x)) -> mapM f l = Ok (map g l).
Proof.
  induction l as [|a l IH]; intros H; simpl.
  - reflexivity.
  - rewrite (H a (or_introl eq_refl)). simpl.
    rewrite IH by (intros x Hx; apply H; right; exact Hx).
    reflexivity.
Qed.

Lemma zip_with_cons {A B C : Type} (f : A -> B -> C) x a y b :
  zip_with f (x :: a) (y :: b) = f x y :: zip_with f a b.
Proof. reflexivity. Qed.

Lemma zip_with_length {A B C : Type} (f : A -> B -> C) (a : list A) (b : list B) :
  length a = length b -> length (zip_with f a b) = length a.
Proof.
  intros H. unfold zip_with.
  rewrite length_map, length_combine, <- H. apply Nat.min_id.
Qed.

Lemma zip_with_ext_in {A B C : Type} (f g : A -> B -> C) (a : list A) (b : list B) :
  (forall x y, In (x, y) (combine a b) -> f x y = g x y) ->
  zip_with f a b = zip_with g a b.
Proof.
  intros H. unfold zip_with. apply map_ext_in.
  intros [x y] Hin. simpl. apply H. exact Hin.
Qed.

Lemma has_shape1_spec (t : tensor1) (n : nat) :
  has_shape1 t n = true <-> length t = n.
Proof. unfold has_shape1. apply Nat.eqb_eq. Qed.

Lemma has_shape2_spec (t : tensor2) (m n : nat) :
  has_shape2 t m n = true <-> length t = m /\ Forall (fun r => length r = n) t.
Proof.
  unfold has_shape2. rewrite andb_true_iff, Nat.eqb_eq, forallb_forall, Forall_forall.
  split; intros [H1 H2]; split; try exact H1; intros r Hr;
    apply has_shape1_spec; apply H2; exact Hr.
Qed.

Lemma has_shape3_spec (t : tensor3) (b m n : nat) :
  has_shape3 t b m n = true <->
  length t = b /\ Forall (fun s => has_shape2 s m n = true) t.
Proof.
  unfold has_shape3. rewrite andb_true_iff, Nat.eqb_eq, forallb_forall, Forall_forall.
  reflexivity.
Qed.

Lemma has_shape4_spec (t : tensor4) (b c h w : nat) :
  has_shape4 t b c h w = true <->
  length t = b /\ Forall (fun s => has_shape3 s c h w = true) t.
Proof.
  unfold has_shape4. rewrite andb_true_iff, Nat.eqb_eq, forallb_forall, Forall_forall.
  reflexivity.
Qed.

(** The sizes of the two leading axes of a rank-3 tensor. *)
Lemma has_shape3_rows (t : tensor3) (b m n : nat) :
  has_shape3 t b m n = true -> length t = b /\ Forall (fun s => length s = m) t.
Proof.
  intros H. apply has_shape3_spec in H as [Hl Hf]. split; [exact Hl|].
  eapply Forall_impl; [|exact Hf].
  intros s Hs. apply has_shape2_spec in Hs. tauto.
Qed.

(** ** Broadcasting tensors of equal shape *)

Lemma broadcast_same {A B C : Type} (f : A -> B -> result C) (g : A -> B -> C)
    (a : list A) (b : list B) :
  length a = length b ->
  (forall x y, In (x, y) (combine a b) -> f x y = Ok (g x y)) ->
  broadcast f a b = Ok (zip_with g a b).
Proof.
  intros Hl H. unfold broadcast. rewrite Hl, Nat.eqb_refl.
  unfold zip_with. apply mapM_map. intros [x y] Hin. simpl. apply H. exact Hin.
Qed.

Lemma broadcast1_same (f : R -> R -> R) (a b : tensor1) :
  length a = length b -> broadcast1 f a b = Ok (zip_with f a b).
Proof.
  intros Hl. unfold broadcast1. apply broadcast_same; [exact Hl|]. reflexivity.
Qed.

Lemma broadcast2_same (f : R -> R -> R) (a b : tensor2) (m n : nat) :
  has_shape2 a m n = true -> has_shape2 b m n = true ->
  broadcast2 f a b = Ok (zip_with (zip_with f) a b).
Proof.
  intros Ha Hb.
  apply has_shape2_spec in Ha as [Hla Hfa]. apply has_shape2_spec in Hb as [Hlb Hfb].
  unfold broadcast2. apply broadcast_same; [congruence|].
  intros x y Hin. apply broadcast1_same.
  rewrite Forall_forall in Hfa, Hfb.
  rewrite (Hfa x (in_combine_l _ _ _ _ Hin)), (Hfb y (in_combine_r _ _ _ _ Hin)).
  reflexivity.
Qed.

(** ** [view(batch_size, -1)] *)

Lemma chunks_concat (rows : tensor2) (n : nat) :
  Forall (fun r => length r = n) rows ->
  chunks (length rows) n (concat rows) = rows.
Proof.
  induction 1 as [|r rows Hr _ IH]; simpl.
  - reflexivity.
  - subst n. rewrite firstn_app, skipn_app, Nat.sub_diag, firstn_all, skipn_all.
    simpl. rewrite app_nil_r, IH. reflexivity.
Qed.

Lemma length_concat_rows (rows : tensor2) (n : nat) :
  Forall (fun r => length r = n) rows ->
  length (concat rows) = (length rows * n)%nat.
Proof.
  induction 1 as [|r rows Hr _ IH]; simpl.
  - reflexivity.
  - rewrite length_app, IH, Hr. reflexivity.
Qed.

Lemma view_rows_concat (rows : tensor2) (n : nat) :
  rows <> [] ->
  Forall (fun r => length r = n) rows ->
  view_rows (concat rows) (length rows) = Ok rows.
Proof.
  intros Hne Hf. unfold view_rows.
  assert (Hb : length rows <> 0%nat) by (destruct rows; [congruence | discriminate]).
  apply Nat.eqb_neq in Hb as Hb'. rewrite Hb'.
  rewrite (length_concat_rows rows n Hf).
  rewrite Nat.mul_comm, Nat.Div0.mod_mul, Nat.eqb_refl.
  rewrite Nat.div_mul by exact Hb.
  rewrite (chunks_concat rows n Hf). reflexivity.
Qed.

Lemma concat_singletons {A : Type} (h : A -> R) (s : list A) :
  concat (map (fun v => [h v]) s) = map h s.
Proof.
  induction s as [|v s IH]; simpl; [reflexivity | rewrite IH; reflexivity].
Qed.

(** Dropping a trailing axis of size 1 from a [batch, n, 1] tensor. *)
Lemma view3_keepdim {A : Type} (h : A -> R) (t : list (list A)) (n : nat) :
  t <> [] ->
  Forall (fun s => length s = n) t ->
  view3 (map (map (fun v => [h v])) t) (length t) = Ok (map (map h) t).
Proof.
  intros Hne Hf. unfold view3, flatten3, flatten2.
  rewrite map_map.
  rewrite (map_ext _ (map h) (fun s => concat_singletons h s)).
  rewrite <- (length_map (map h) t).
  apply (view_rows_concat _ n).
  - destruct t; [congruence | discriminate].
  - rewrite Forall_map. eapply Forall_impl; [|exact Hf].
    intros s Hs. simpl. rewrite length_map. exact Hs.
Qed.

(** ** The capsule norms and the two hinge terms *)

Lemma v_mag_keepdim (f : R -> R) (input : tensor3) :
  map3d f (map3d sqrt (sum_dim2_keepdim (map3d pow_2 input))) =
  map (map (fun v => [f (norm v)])) input.
Proof.
  unfold map3d, map2d, sum_dim2_keepdim, norm.
  rewrite !map_map. apply map_ext. intros s.
  rewrite !map_map. apply map_ext. intros v. reflexivity.
Qed.

Lemma v_mag_norm (input : tensor3) :
  map2d sqrt (sum_dim2 (map3d pow_2 input)) = map (map norm) input.
Proof.
  unfold map3d, map2d, sum_dim2, norm.
  rewrite !map_map. apply map_ext. intros s.
  rewrite !map_map. apply map_ext. intros v. reflexivity.
Qed.

Lemma max_3_1_zero {A : Type} (h : A -> R) (t : list (list A)) :
  max_3_1 (map (map (fun v => [h v])) t) (zeros 1) =
  Ok (map (map (fun v => [Rmax (h v) 0])) t).
Proof.
  unfold max_3_1.
  rewrite (mapM_map _ (map (fun row => zip_with Rmax row (zeros 1)))).
  - f_equal. rewrite map_map. apply map_ext. intros s.
    rewrite !map_map. apply map_ext. intros v. reflexivity.
  - intros s Hs. apply mapM_map. intros row Hrow.
    apply broadcast1_same.
    apply in_map_iff in Hs as [s0 [<- _]].
    apply in_map_iff in Hrow as [v [<- _]]. reflexivity.
Qed.

Lemma zero_on_device (self : CapsuleNetwork) :
  (if (0 <=? gpu self)%Z then cuda (zeros 1) (gpu self) else zeros 1) = zeros 1.
Proof. destruct (0 <=? gpu self)%Z; reflexivity. Qed.

(** The class losses as the code combines them, row by row. *)
Lemma class_losses_row (capsules : tensor2) (T : tensor1) :
  zip_with Rplus
    (zip_with Rmult T (map (fun v => pow_2 (Rmax (0.9 - norm v) 0)) capsules))
    (zip_with Rmult (map (fun x => 0.5 * x) (map (fun x => 1.0 - x) T))
       (map (fun v => pow_2 (Rmax (norm v - 0.1) 0)) capsules)) =
  zip_with (fun v T_c => class_loss T_c (norm v)) capsules T.
Proof.
  revert T. induction capsules as [|v capsules IH]; intros [|t T]; try reflexivity.
  simpl map. rewrite !zip_with_cons, IH. f_equal.
  unfold class_loss, pow_2.
  rewrite (Rmax_comm 0 (0.9 - norm v)), (Rmax_comm 0 (norm v - 0.1)). lra.
Qed.

Lemma class_losses_batch (input : tensor3) (target : tensor2) :
  zip_with (zip_with Rplus)
    (zip_with (zip_with Rmult) target
       (map2d pow_2 (map (map (fun v => Rmax (0.9 - norm v) 0)) input)))
    (zip_with (zip_with Rmult)
       (map2d (fun x => 0.5 * x) (map2d (fun x => 1.0 - x) target))
       (map2d pow_2 (map (map (fun v => Rmax (norm v - 0.1) 0)) input))) =
  zip_with (fun capsules T => zip_with (fun v T_c => class_loss T_c (norm v)) capsules T)
    input target.
Proof.
  revert target. induction input as [|s input IH]; intros [|T target]; try reflexivity.
  unfold map2d in *. simpl map. rewrite !zip_with_cons, IH. f_equal.
  rewrite map_map. rewrite (map_map _ pow_2). apply class_losses_row.
Qed.

Lemma has_shape2_map2d (f : R -> R) (t : tensor2) (m n : nat) :
  has_shape2 t m n = true -> has_shape2 (map2d f t) m n = true.
Proof.
  rewrite !has_shape2_spec. intros [Hl Hf]. unfold map2d. split.
  - rewrite length_map. exact Hl.
  - rewrite Forall_map. eapply Forall_impl; [|exact Hf].
    intros r Hr. simpl. rewrite length_map. exact Hr.
Qed.

Lemma has_shape2_norms {A : Type} (h : A -> R) (t : list (list A)) (n : nat) :
  Forall (fun s => length s = n) t ->
  has_shape2 (map (map h) t) (length t) n = true.
Proof.
  intros Hf. apply has_shape2_spec. split.
  - apply length_map.
  - rewrite Forall_map. eapply Forall_impl; [|exact Hf].
    intros r Hr. simpl. rewrite length_map. exact Hr.
Qed.

Lemma has_shape2_zip_with (f : R -> R -> R) (a b : tensor2) (m n : nat) :
  has_shape2 a m n = true -> has_shape2 b m n = true ->
  has_shape2 (zip_with (zip_with f) a b) m n = true.
Proof.
  rewrite !has_shape2_spec. intros [Hla Hfa] [Hlb Hfb]. split.
  - rewrite zip_with_length; [exact Hla | transitivity m; [exact Hla | symmetry; exact Hlb]].
  - unfold zip_with at 1. rewrite Forall_map, Forall_forall. intros [x y] Hin. simpl.
    rewrite Forall_forall in Hfa, Hfb.
    rewrite zip_with_length.
    + apply Hfa. eapply in_combine_l. exact Hin.
    + rewrite (Hfa x (in_combine_l _ _ _ _ Hin)), (Hfb y (in_combine_r _ _ _ _ Hin)).
      reflexivity.
Qed.

Lemma reduce_eq (size_average : bool) (L : tensor1) :
  (if size_average then mean L else sum L) = reduce size_average L.
Proof. destruct size_average; reflexivity. Qed.

(** [margin_loss] up to the products with the target. *)
Lemma margin_loss_hinges (self : CapsuleNetwork) (input : tensor3) (target : tensor2)
    (size_average : bool) (n : nat) :
  input <> [] ->
  Forall (fun s => length s = n) input ->
  margin_loss self input target size_average =
  (present <- mul2 target
                (map2d pow_2 (map (map (fun v => Rmax (0.9 - norm v) 0)) input)) ;;
   absent <- mul2 (map2d (fun x => 0.5 * x) (map2d (fun x => 1.0 - x) target))
               (map2d pow_2 (map (map (fun v => Rmax (norm v - 0.1) 0)) input)) ;;
   L_c <- add2 present absent ;;
   Ok (reduce size_average (sum_dim1 L_c))).
Proof.
  intros Hne Hrows. unfold margin_loss, size0.
  rewrite zero_on_device, !v_mag_keepdim, !max_3_1_zero. cbn [bind].
  rewrite (view3_keepdim (fun v => Rmax (0.9 - norm v) 0) input n Hne Hrows).
  rewrite (view3_keepdim (fun v => Rmax (norm v - 0.1) 0) input n Hne Hrows).
  cbn [bind]. destruct size_average; reflexivity.
Qed.

(** [margin_loss] on a batch of [n] capsules per sample and a target of the
    same two leading sizes: the length of the capsule vectors plays no part. *)
Lemma margin_loss_eq (self : CapsuleNetwork) (input : tensor3) (target : tensor2)
    (size_average : bool) (n : nat) :
  input <> [] ->
  Forall (fun s => length s = n) input ->
  has_shape2 target (length input) n = true ->
  margin_loss self input target size_average =
  Ok (margin_loss_spec input target size_average).
Proof.
  intros Hne Hrows Htarget.
  rewrite (margin_loss_hinges self input target size_average n Hne Hrows).
  unfold mul2, add2.
  rewrite (broadcast2_same Rmult target _ (length input) n Htarget)
    by (apply has_shape2_map2d, has_shape2_norms; exact Hrows).
  cbn [bind].
  rewrite (broadcast2_same Rmult _ _ (length input) n)
    by (repeat apply has_shape2_map2d; try exact Htarget;
        apply has_shape2_norms; exact Hrows).
  cbn [bind].
  rewrite (broadcast2_same Rplus _ _ (length input) n)
    by (apply has_shape2_zip_with; repeat apply has_shape2_map2d;
        try exact Htarget; apply has_shape2_norms; exact Hrows).
  cbn [bind].
  rewrite class_losses_batch.
  unfold margin_loss_spec, sum_dim1, sample_loss, zip_with.
  rewrite map_map. reflexivity.
Qed.

(** ** The argmax of a row *)

Lemma argmax_from_first_max (l pre : list R) (best_i : nat) (best : R) :
  nth_error pre best_i = Some best ->
  (forall j x, nth_error pre j = Some x -> x <= best) ->
  (forall j x, (j < best_i)%nat -> nth_error pre j = Some x -> x < best) ->
  is_first_max (pre ++ l) (argmax_from best_i best (length pre) l).
Proof.
  revert pre best_i best.
  induction l as [|x l IH]; intros pre best_i best Hbest Hmax Hfirst; simpl.
  - rewrite app_nil_r. exists best. auto.
  - assert (Hnext : S (length pre) = length (pre ++ [x]))
      by (rewrite length_app; simpl; lia).
    assert (Happ : pre ++ x :: l = (pre ++ [x]) ++ l)
      by (rewrite <- app_assoc; reflexivity).
    assert (Hsplit : forall j y, nth_error (pre ++ [x]) j = Some y ->
              nth_error pre j = Some y \/ (j = length pre /\ y = x)).
    { intros j y Hj. destruct (Nat.lt_ge_cases j (length pre)) as [Hlt|Hge].
      - left. rewrite nth_error_app1 in Hj by exact Hlt. exact Hj.
      - right. rewrite nth_error_app2 in Hj by exact Hge.
        destruct (j - length pre)%nat as [|k] eqn:Hk; simpl in Hj.
        + injection Hj as <-. split; [lia | reflexivity].
        + destruct k; discriminate. }
    rewrite Hnext, Happ.
    destruct (Rlt_dec best x) as [Hlt|Hge].
    + apply IH.
      * rewrite nth_error_app2 by lia. rewrite Nat.sub_diag. reflexivity.
      * intros j y Hj. destruct (Hsplit j y Hj) as [Hpre|[_ ->]].
        -- apply Hmax in Hpre. lra.
        -- lra.
      * intros j y Hjlt Hj. destruct (Hsplit j y Hj) as [Hpre|[-> _]].
        -- apply Hmax in Hpre. lra.
        -- lia.
    + apply IH.
      * rewrite nth_error_app1; [exact Hbest|].
        apply nth_error_Some. rewrite Hbest. discriminate.
      * intros j y Hj. destruct (Hsplit j y Hj) as [Hpre|[_ ->]].
        -- apply Hmax in Hpre. exact Hpre.
        -- lra.
      * intros j y Hjlt Hj. destruct (Hsplit j y Hj) as [Hpre|[-> _]].
        -- apply (Hfirst j y Hjlt Hpre).
        -- assert (best_i < length pre)%nat
             by (apply nth_error_Some; rewrite Hbest; discriminate).
           lia.
Qed.

Lemma argmax_index_first_max (row : tensor1) :
  row <> [] -> is_first_max row (argmax_index row).
Proof.
  destruct row as [|x l]; [congruence|]. intros _. simpl.
  apply (argmax_from_first_max l [x] 0 x).
  - reflexivity.
  - intros [|[|j]] y Hj; simpl in Hj; try discriminate. injection Hj as <-. lra.
  - intros j y Hj. lia.
Qed.

Lemma argmax_Ok (row : tensor1) :
  row <> [] -> argmax row = Ok (argmax_index row).
Proof. destruct row; [congruence | reflexivity]. Qed.

Lemma is_first_max_lt (l : list R) (k : nat) :
  is_first_max l k -> (k < length l)%nat.
Proof.
  intros [m [Hk _]]. apply nth_error_Some. rewrite Hk. discriminate.
Qed.

Lemma winner_lt (capsules : tensor2) :
  capsules <> [] -> (winner capsules < length capsules)%nat.
Proof.
  intros Hne. unfold winner. rewrite <- (length_map norm capsules).
  apply is_first_max_lt, argmax_index_first_max.
  destruct capsules; [congruence | discriminate].
Qed.

(** ** Item access and assignment *)

Lemma getitem_nth_error {A : Type} (t : list A) (i : nat) (x : A) :
  nth_error t i = Some x -> getitem t i = Ok x.
Proof. intros H. unfold getitem. rewrite H. reflexivity. Qed.

Lemma setitem_update {A : Type} (t : list A) (i : nat) (x : A) :
  (i < length t)%nat -> setitem t i x = Ok (update t i x).
Proof.
  revert i. induction t as [|y t IH]; intros i Hi; simpl in Hi; [lia|].
  destruct i as [|i]; simpl.
  - reflexivity.
  - rewrite IH by lia. reflexivity.
Qed.

Lemma setitem_middle {A : Type} (l1 l2 : list A) (y x : A) :
  setitem (l1 ++ y :: l2) (length l1) x = Ok (l1 ++ x :: l2).
Proof.
  induction l1 as [|z l1 IH]; simpl.
  - reflexivity.
  - rewrite IH. reflexivity.
Qed.

Lemma stack_Some {A : Type} (ts : list A) :
  ts <> [] -> stack (map Some ts) = Ok ts.
Proof.
  intros Hne. destruct ts as [|t ts]; [congruence|].
  unfold stack. simpl map.
  rewrite (mapM_map _ (fun slot => match slot with Some u => u | None => t end)).
  - f_equal. simpl. f_equal. rewrite map_map. apply map_id.
  - intros slot Hslot.
    change (Some t :: map Some ts) with (map Some (t :: ts)) in Hslot.
    apply in_map_iff in Hslot as [u [<- _]]. reflexivity.
Qed.

(** ** One sample of the masking loop *)

Lemma zeros_after (s : tensor2) (a k : nat) :
  (k < a)%nat ->
  zip_with (fun j v => if (j =? k)%nat then v else zeros (length v))
    (seq a (length s)) s = zeros_like2 s.
Proof.
  revert a. induction s as [|v s IH]; intros a Hk; simpl.
  - reflexivity.
  - rewrite zip_with_cons, IH by lia.
    destruct (Nat.eqb_spec a k); [lia | reflexivity].
Qed.

Lemma update_zeros (s : tensor2) (a w : nat) :
  (w < length s)%nat ->
  update (zeros_like2 s) w (nth w s []) =
  zip_with (fun j v => if (j =? a + w)%nat then v else zeros (length v))
    (seq a (length s)) s.
Proof.
  revert a w. induction s as [|v s IH]; intros a w Hw; simpl in Hw; [lia|].
  destruct w as [|w]; simpl length; simpl seq; rewrite zip_with_cons.
  - rewrite Nat.add_0_r, Nat.eqb_refl, zeros_after by lia. reflexivity.
  - destruct (Nat.eqb_spec a (a + S w)); [lia|].
    rewrite Nat.add_succ_r, <- Nat.add_succ_l, <- IH by lia. reflexivity.
Qed.

Lemma mask_winner_update (s : tensor2) :
  s <> [] -> update (zeros_like2 s) (winner s) (nth (winner s) s []) = mask_winner s.
Proof.
  intros Hne. unfold mask_winner. apply (update_zeros s 0). apply winner_lt, Hne.
Qed.

Lemma mask_sample_step (self : CapsuleNetwork) (input : tensor3)
    (done : list tensor2) (s : tensor2) (rest : list tensor2)
    (pending : list (option tensor2)) :
  input = done ++ s :: rest ->
  s <> [] ->
  mask_sample self input (map winner input)
    (map Some (map mask_winner done) ++ None :: pending) (length done) =
  Ok (map Some (map mask_winner (done ++ [s])) ++ pending).
Proof.
  intros Hinput Hne. unfold mask_sample.
  assert (Hs : nth_error input (length done) = Some s).
  { rewrite Hinput, nth_error_app2, Nat.sub_diag by lia. reflexivity. }
  rewrite (getitem_nth_error _ _ _ Hs). simpl bind.
  rewrite (getitem_nth_error _ _ _ (map_nth_error winner _ _ Hs)). simpl bind.
  assert (Hw : (winner s < length s)%nat) by (apply winner_lt, Hne).
  rewrite (getitem_nth_error s (winner s) (nth (winner s) s [])) by
    (apply nth_error_nth'; exact Hw).
  simpl bind.
  replace (if (0 <=? gpu self)%Z then cuda (zeros_like2 s) (gpu self) else zeros_like2 s)
    with (zeros_like2 s) by (destruct (0 <=? gpu self)%Z; reflexivity).
  rewrite setitem_update by (unfold zeros_like2; rewrite length_map; exact Hw).
  simpl bind.
  rewrite mask_winner_update by exact Hne.
  rewrite <- (length_map mask_winner done), <- (length_map Some (map mask_winner done)).
  rewrite setitem_middle.
  rewrite !map_app, <- app_assoc. reflexivity.
Qed.

(** The loop, started after the samples [done] have been written. *)
Lemma masking_loop (self : CapsuleNetwork) (input : tensor3) (rest done : list tensor2) :
  input = done ++ rest ->
  Forall (fun s => s <> []) rest ->
  for_each (mask_sample self input (map winner input))
    (seq (length done) (length rest))
    (map Some (map mask_winner done) ++ repeat None (length rest)) =
  Ok (map Some (map mask_winner input)).
Proof.
  revert done. induction rest as [|s rest IH]; intros done Hinput Hne.
  - simpl. rewrite app_nil_r in *. subst. reflexivity.
  - apply Forall_cons_iff in Hne as [Hs Hrest].
    simpl length. simpl seq. simpl repeat. simpl for_each.
    rewrite (mask_sample_step self input done s rest _ Hinput Hs). simpl bind.
    replace (S (length done)) with (length (done ++ [s]))
      by (rewrite length_app; simpl; lia).
    apply IH; [|exact Hrest].
    rewrite <- app_assoc. exact Hinput.
Qed.

Lemma mask_capsules_eq (self : CapsuleNetwork) (input : tensor3) :
  input <> [] ->
  Forall (fun s => s <> []) input ->
  mask_capsules self input = Ok (map mask_winner input).
Proof.
  intros Hne Hsamples. unfold mask_capsules, max_dim1_indices, size0.
  rewrite v_mag_norm.
  rewrite (mapM_map argmax argmax_index).
  2:{ intros row Hrow. apply argmax_Ok.
      apply in_map_iff in Hrow as [s [<- Hs]].
      rewrite Forall_forall in Hsamples. specialize (Hsamples s Hs).
      destruct s; [congruence | discriminate]. }
  simpl bind. rewrite map_map.
  change (map (fun x => argmax_index (map norm x)) input) with (map winner input).
  pose proof (masking_loop self input input [] eq_refl Hsamples) as Hloop.
  simpl in Hloop. rewrite Hloop. simpl bind.
  apply stack_Some. destruct input; [congruence | discriminate].
Qed.

(** ** The masked sample, capsule by capsule *)

Lemma nth_error_zip_with_seq {A B : Type} (f : nat -> A -> B) (s : list A)
    (a j : nat) (v : A) :
  nth_error s j = Some v ->
  nth_error (zip_with f (seq a (length s)) s) j = Some (f (a + j)%nat v).
Proof.
  revert a j. induction s as [|x s IH]; intros a j Hj.
  - destruct j; discriminate.
  - simpl length. simpl seq. rewrite zip_with_cons. destruct j as [|j]; simpl in *.
    + injection Hj as ->. rewrite Nat.add_0_r. reflexivity.
    + rewrite (IH (S a) j Hj). rewrite Nat.add_succ_r. reflexivity.
Qed.

Lemma mask_winner_nth_error (s : tensor2) (j : nat) (v : tensor1) :
  nth_error s j = Some v ->
  nth_error (mask_winner s) j =
  Some (if (j =? winner s)%nat then v else zeros (length v)).
Proof.
  intros Hj. unfold mask_winner.
  rewrite (nth_error_zip_with_seq _ s 0 j v Hj). reflexivity.
Qed.

Lemma mask_winner_shape (s : tensor2) (n d : nat) :
  has_shape2 s n d = true -> has_shape2 (mask_winner s) n d = true.
Proof.
  rewrite !has_shape2_spec. intros [Hl Hf]. unfold mask_winner. split.
  - rewrite zip_with_length; rewrite length_seq; [exact Hl | reflexivity].
  - unfold zip_with. rewrite Forall_map, Forall_forall. intros [j v] Hin. simpl.
    rewrite Forall_forall in Hf. pose proof (Hf v (in_combine_r _ _ _ _ Hin)) as Hv.
    destruct (j =? winner s)%nat; [exact Hv|].
    unfold zeros. rewrite repeat_length. exact Hv.
Qed.

Lemma has_shape3_map (f : tensor2 -> tensor2) (t : tensor3) (b n d : nat) :
  (forall s, has_shape2 s n d = true -> has_shape2 (f s) n d = true) ->
  has_shape3 t b n d = true -> has_shape3 (map f t) b n d = true.
Proof.
  intros Hf. rewrite !has_shape3_spec. intros [Hl Hs]. split.
  - rewrite length_map. exact Hl.
  - rewrite Forall_map. eapply Forall_impl; [|exact Hs]. exact Hf.
Qed.

Lemma has_shape3_samples_nonempty (t : tensor3) (b n d : nat) :
  (0 < n)%nat -> has_shape3 t b n d = true -> Forall (fun s => s <> []) t.
Proof.
  intros Hn Ht. apply has_shape3_rows in Ht as [_ Hrows].
  eapply Forall_impl; [|exact Hrows].
  intros s Hs ->. simpl in Hs. lia.
Qed.

Lemma has_shape3_nonempty (t : tensor3) (b n d : nat) :
  (0 < b)%nat -> has_shape3 t b n d = true -> t <> [].
Proof.
  intros Hb Ht. apply has_shape3_spec in Ht as [Hl _].
  intros ->. simpl in Hl. lia.
Qed.

(** ** Flattening tensors of equal shape *)

Lemma zip_with_app {A B C : Type} (f : A -> B -> C) (a1 a2 : list A) (b1 b2 : list B) :
  length a1 = length b1 ->
  zip_with f (a1 ++ a2) (b1 ++ b2) = zip_with f a1 b1 ++ zip_with f a2 b2.
Proof.
  revert b1. induction a1 as [|x a1 IH]; intros [|y b1] Hl; simpl in Hl; try discriminate.
  - reflexivity.
  - simpl app. rewrite !zip_with_cons, IH by (injection Hl; auto). reflexivity.
Qed.

Lemma zip_with_map {A A' B B' C : Type} (f : A' -> B' -> C) (g : A -> A') (h : B -> B')
    (a : list A) (b : list B) :
  zip_with f (map g a) (map h b) = zip_with (fun x y => f (g x) (h y)) a b.
Proof.
  revert b. induction a as [|x a IH]; intros [|y b]; try reflexivity.
  simpl map. rewrite !zip_with_cons, IH. reflexivity.
Qed.

Lemma map_zip_with {A B C D : Type} (g : C -> D) (f : A -> B -> C)
    (a : list A) (b : list B) :
  map g (zip_with f a b) = zip_with (fun x y => g (f x y)) a b.
Proof. unfold zip_with. rewrite map_map. reflexivity. Qed.

Lemma concat_zip_with {A B C : Type} (f : A -> B -> C)
    (a : list (list A)) (b : list (list B)) (n : nat) :
  Forall (fun r => length r = n) a ->
  Forall (fun r => length r = n) b ->
  concat (zip_with (zip_with f) a b) = zip_with f (concat a) (concat b).
Proof.
  intros Ha. revert b. induction Ha as [|r a Hr _ IH]; intros b Hb.
  - reflexivity.
  - destruct Hb as [|q b Hq Hb].
    + simpl. unfold zip_with. rewrite combine_nil. reflexivity.
    + rewrite zip_with_cons. simpl concat.
      rewrite zip_with_app by congruence. rewrite IH by exact Hb. reflexivity.
Qed.

Lemma length_flatten2 (t : tensor2) (m n : nat) :
  has_shape2 t m n = true -> length (flatten2 t) = (m * n)%nat.
Proof.
  intros H. apply has_shape2_spec in H as [Hl Hf]. unfold flatten2.
  rewrite (length_concat_rows t n Hf), Hl. reflexivity.
Qed.

Lemma length_flatten3 (t : tensor3) (c h w : nat) :
  has_shape3 t c h w = true -> length (flatten3 t) = (c * (h * w))%nat.
Proof.
  intros H. apply has_shape3_spec in H as [Hl Hf]. unfold flatten3.
  rewrite (length_concat_rows _ (h * w)).
  - rewrite length_map, Hl. reflexivity.
  - rewrite Forall_map. eapply Forall_impl; [|exact Hf].
    intros s Hs. simpl. apply length_flatten2. exact Hs.
Qed.

Lemma flatten2_zip_with (f : R -> R -> R) (a b : tensor2) (m n : nat) :
  has_shape2 a m n = true -> has_shape2 b m n = true ->
  flatten2 (zip_with (zip_with f) a b) = zip_with f (flatten2 a) (flatten2 b).
Proof.
  intros Ha Hb. apply has_shape2_spec in Ha as [_ Ha]. apply has_shape2_spec in Hb as [_ Hb].
  apply (concat_zip_with f a b n Ha Hb).
Qed.

Lemma flatten3_zip_with (f : R -> R -> R) (a b : tensor3) (c h w : nat) :
  has_shape3 a c h w = true -> has_shape3 b c h w = true ->
  flatten3 (zip_with (zip_with (zip_with f)) a b) =
  zip_with f (flatten3 a) (flatten3 b).
Proof.
  intros Ha Hb. apply has_shape3_spec in Ha as [_ Ha]. apply has_shape3_spec in Hb as [_ Hb].
  unfold flatten3. rewrite map_zip_with.
  rewrite (zip_with_ext_in _ (fun x y => zip_with f (flatten2 x) (flatten2 y))).
  - rewrite <- zip_with_map. apply (concat_zip_with f _ _ (h * w)).
    + rewrite Forall_map. eapply Forall_impl; [|exact Ha].
      intros s Hs. simpl. apply length_flatten2. exact Hs.
    + rewrite Forall_map. eapply Forall_impl; [|exact Hb].
      intros s Hs. simpl. apply length_flatten2. exact Hs.
  - intros x y Hin. rewrite Forall_forall in Ha, Hb.
    apply (flatten2_zip_with f x y h w).
    + apply Ha. eapply in_combine_l. exact Hin.
    + apply Hb. eapply in_combine_r. exact Hin.
Qed.

Lemma broadcast3_same (f : R -> R -> R) (a b : tensor3) (c h w : nat) :
  has_shape3 a c h w = true -> has_shape3 b c h w = true ->
  broadcast3 f a b = Ok (zip_with (zip_with (zip_with f)) a b).
Proof.
  intros Ha Hb.
  apply has_shape3_spec in Ha as [Hla Hfa]. apply has_shape3_spec in Hb as [Hlb Hfb].
  unfold broadcast3. apply broadcast_same; [congruence|].
  intros x y Hin. rewrite Forall_forall in Hfa, Hfb.
  apply (broadcast2_same f x y h w).
  - apply Hfa. eapply in_combine_l. exact Hin.
  - apply Hfb. eapply in_combine_r. exact Hin.
Qed.

Lemma broadcast4_same (f : R -> R -> R) (a b : tensor4) (n c h w : nat) :
  has_shape4 a n c h w = true -> has_shape4 b n c h w = true ->
  broadcast4 f a b = Ok (zip_with (zip_with (zip_with (zip_with f))) a b).
Proof.
  intros Ha Hb.
  apply has_shape4_spec in Ha as [Hla Hfa]. apply has_shape4_spec in Hb as [Hlb Hfb].
  unfold broadcast4. apply broadcast_same; [congruence|].
  intros x y Hin. rewrite Forall_forall in Hfa, Hfb.
  apply (broadcast3_same f x y c h w).
  - apply Hfa. eapply in_combine_l. exact Hin.
  - apply Hfb. eapply in_combine_r. exact Hin.
Qed.

(** ** [reconstruct] and [reconstruction_loss] on well-shaped tensors *)

Lemma reconstruct_eq (self : CapsuleNetwork) (d : Decoder) (input : tensor3)
    (b n dim : nat) :
  has_reconstruction self = true ->
  decoder self = Some d ->
  has_shape3 input b n dim = true ->
  (0 < b)%nat -> (0 < n)%nat ->
  reconstruct self input = Decoder_forward d (masked_capsules input).
Proof.
  intros Hrec Hdec Hshape Hb Hn. unfold reconstruct, size0, masked_capsules.
  rewrite Hrec. simpl negb. cbv iota.
  pose proof (has_shape3_nonempty input b n dim Hb Hshape) as Hne.
  rewrite (mask_capsules_eq self input Hne
             (has_shape3_samples_nonempty input b n dim Hn Hshape)).
  simpl bind. unfold view3, flatten3. rewrite map_map.
  rewrite <- (length_map (fun s => flatten2 (mask_winner s)) input).
  rewrite (view_rows_concat _ (n * dim)).
  - simpl bind. rewrite Hdec. reflexivity.
  - destruct input; [congruence | discriminate].
  - apply has_shape3_spec in Hshape as [_ Hs].
    rewrite Forall_map. eapply Forall_impl; [|exact Hs].
    intros s Hshape_s. simpl. apply length_flatten2, mask_winner_shape. exact Hshape_s.
Qed.

Lemma squared_errors_eq (reconstructed images : tensor4) (b c h w : nat) :
  has_shape4 reconstructed b c h w = true ->
  has_shape4 images b c h w = true ->
  map flatten3 (zip_with (zip_with (zip_with (zip_with Rminus))) reconstructed images) =
  zip_with (fun x y => zip_with Rminus (flatten3 x) (flatten3 y)) reconstructed images.
Proof.
  intros Hr Hi. apply has_shape4_spec in Hr as [_ Hr]. apply has_shape4_spec in Hi as [_ Hi].
  rewrite map_zip_with. apply zip_with_ext_in. intros x y Hin.
  rewrite Forall_forall in Hr, Hi.
  apply (flatten3_zip_with Rminus x y c h w).
  - apply Hr. eapply in_combine_l. exact Hin.
  - apply Hi. eapply in_combine_r. exact Hin.
Qed.

Lemma reconstruction_loss_eq (self : CapsuleNetwork) (images reconstructed : tensor4)
    (input : tensor3) (size_average : bool) (b c h w : nat) :
  reconstruct self input = Ok reconstructed ->
  has_shape4 reconstructed b c h w = true ->
  has_shape4 images b c h w = true ->
  (0 < b)%nat ->
  reconstruction_loss self images input size_average =
  Ok (reconstruction_loss_spec reconstructed images size_average).
Proof.
  intros Hrec Hr Hi Hb. unfold reconstruction_loss, size0.
  rewrite Hrec. simpl bind. unfold sub4.
  rewrite (broadcast4_same Rminus reconstructed images b c h w Hr Hi). simpl bind.
  unfold view4, flatten4. rewrite (squared_errors_eq reconstructed images b c h w Hr Hi).
  pose proof Hr as Hr'. pose proof Hi as Hi'.
  apply has_shape4_spec in Hr' as [Hlr Hfr]. apply has_shape4_spec in Hi' as [Hli Hfi].
  assert (Hlen : length images =
                 length (zip_with (fun x y => zip_with Rminus (flatten3 x) (flatten3 y))
                           reconstructed images)).
  { rewrite zip_with_length; congruence. }
  rewrite Hlen at 1.
  rewrite (view_rows_concat _ (c * (h * w))).
  - simpl bind. rewrite reduce_eq. unfold reconstruction_loss_spec. do 2 f_equal.
    unfold sum_dim1, map2d. rewrite map_map, map_zip_with. f_equal.
    apply zip_with_ext_in. intros x y _. unfold squared_error.
    rewrite map_zip_with. reflexivity.
  - intros Hnil. rewrite Hnil in Hlen. simpl in Hlen. lia.
  - unfold zip_with at 1. rewrite Forall_map, Forall_forall. intros [x y] Hin. simpl.
    rewrite Forall_forall in Hfr, Hfi.
    rewrite zip_with_length.
    + apply (length_flatten3 x c h w), Hfr. eapply in_combine_l. exact Hin.
    + rewrite (length_flatten3 x c h w), (length_flatten3 y c h w); [reflexivity| |].
      * apply Hfi. eapply in_combine_r. exact Hin.
      * apply Hfr. eapply in_combine_l. exact Hin.
Qed.

(** ** Sums of zeros and positions in paired lists *)

Lemma sum_zeros (l : list R) : Forall (fun x => x = 0) l -> sum l = 0.
Proof.
  induction 1 as [|x l Hx _ IH]; simpl.
  - reflexivity.
  - rewrite Hx, IH. lra.
Qed.

Lemma in_combine_nth_error {A B : Type} (a : list A) (b : list B) (x : A) (y : B) :
  In (x, y) (combine a b) ->
  exists j, nth_error a j = Some x /\ nth_error b j = Some y.
Proof.
  revert b. induction a as [|x0 a IH]; intros [|y0 b] Hin; simpl in Hin; try tauto.
  destruct Hin as [Heq|Hin].
  - injection Heq as -> ->. exists O. split; reflexivity.
  - destruct (IH b Hin) as [j [Ha Hb]]. exists (S j). split; assumption.
Qed.

Lemma nth_error_one_hot (n c j : nat) (t : R) :
  nth_error (one_hot n c) j = Some t -> t = if (j =? c)%nat then 1 else 0.
Proof.
  unfold one_hot. intros H.
  assert (Hj : (j < n)%nat).
  { assert (Hsome : nth_error (map (fun j => if (j =? c)%nat then 1 else 0) (seq 0 n)) j
                    <> None) by (rewrite H; discriminate).
    apply nth_error_Some in Hsome. rewrite length_map, length_seq in Hsome. exact Hsome. }
  rewrite (map_nth_error _ j (seq 0 n) (d := j)) in H.
  - injection H as <-. reflexivity.
  - rewrite nth_error_seq. apply Nat.ltb_lt in Hj. rewrite Hj. reflexivity.
Qed.

Lemma class_loss_present (v_mag : R) : 0.9 <= v_mag -> class_loss 1 v_mag = 0.
Proof.
  intros H. unfold class_loss. rewrite (Rmax_left 0 (0.9 - v_mag)) by lra. lra.
Qed.

Lemma class_loss_absent (v_mag : R) : v_mag <= 0.1 -> class_loss 0 v_mag = 0.
Proof.
  intros H. unfold class_loss. rewrite (Rmax_left 0 (v_mag - 0.1)) by lra. lra.
Qed.

Lemma sample_loss_zero (n : nat) (capsules : tensor2) (T : tensor1) :
  margins_met n capsules T -> sample_loss capsules T = 0.
Proof.
  intros [c [_ [-> Hmargins]]]. unfold sample_loss. apply sum_zeros.
  unfold zip_with. rewrite Forall_map, Forall_forall. intros [v t] Hin. simpl.
  apply in_combine_nth_error in Hin as [j [Hv Ht]].
  apply nth_error_one_hot in Ht. specialize (Hmargins j v Hv).
  destruct (j =? c)%nat; subst t.
  - apply class_loss_present. exact Hmargins.
  - apply class_loss_absent. exact Hmargins.
Qed.

Lemma reduce_zeros (size_average : bool) (l : list R) :
  Forall (fun x => x = 0) l -> reduce size_average l = 0.
Proof.
  intros H. unfold reduce. rewrite (sum_zeros l H).
  destruct size_average; [unfold Rdiv; apply Rmult_0_l | reflexivity].
Qed.

(** ** The margin loss *)

(** C1. On an output-capsule tensor of shape [batch, n, d] (the network's is
    [batch, 10, 16]) and a target of shape [batch, n], [margin_loss] returns
    the class losses T_c * max(0, 0.9 - ||v_c||)^2 +
    0.5 * (1 - T_c) * max(0, ||v_c|| - 0.1)^2, summed over the classes of
    each sample and then averaged ([size_average]) or summed over the batch. *)
Theorem margin_loss_formula (self : CapsuleNetwork) (input : tensor3)
    (target : tensor2) (size_average : bool) (batch n d : nat) :
  has_shape3 input batch n d = true ->
  has_shape2 target batch n = true ->
  (0 < batch)%nat ->
  margin_loss self input target size_average =
  Ok (reduce size_average
        (zip_with
           (fun capsules T =>
              sum (zip_with (fun v T_c => class_loss T_c (norm v)) capsules T))
           input target)).
Proof.
  intros Hinput Htarget Hbatch.
  pose proof (has_shape3_nonempty input batch n d Hbatch Hinput) as Hne.
  apply has_shape3_rows in Hinput as [Hl Hrows].
  rewrite <- Hl in Htarget.
  apply (margin_loss_eq self input target size_average n Hne Hrows Htarget).
Qed.

Lemma margin_loss_formula_witness :
  margin_loss net_reconstructing scenario_input scenario_target true =
  Ok (reduce true
        (zip_with
           (fun capsules T =>
              sum (zip_with (fun v T_c => class_loss T_c (norm v)) capsules T))
           scenario_input scenario_target)).
Proof.
  apply (margin_loss_formula net_reconstructing scenario_input scenario_target true 1 2 1);
    [reflexivity | reflexivity | lia].
Defined.

(** C2. When every sample meets both margins (target capsule at least 0.9
    long, every other capsule at most 0.1), [margin_loss] returns 0 under
    either reduction mode. *)
Theorem margin_loss_zero (self : CapsuleNetwork) (input : tensor3)
    (target : tensor2) (size_average : bool) (batch n d : nat) :
  has_shape3 input batch n d = true ->
  has_shape2 target batch n = true ->
  (0 < batch)%nat ->
  Forall2 (margins_met n) input target ->
  margin_loss self input target size_average = Ok 0.
Proof.
  intros Hinput Htarget Hbatch Hmargins.
  pose proof (has_shape3_nonempty input batch n d Hbatch Hinput) as Hne.
  apply has_shape3_rows in Hinput as [Hl Hrows].
  rewrite <- Hl in Htarget.
  rewrite (margin_loss_eq self input target size_average n Hne Hrows Htarget).
  f_equal. unfold margin_loss_spec. apply reduce_zeros.
  clear Hne Hl Hrows Htarget Hbatch.
  induction Hmargins as [|capsules T input target Hmet _ IH].
  - constructor.
  - rewrite zip_with_cons. constructor; [|exact IH].
    apply (sample_loss_zero n). exact Hmet.
Qed.

Lemma scenario_margins_met : margins_met 2 [[0.95]; [0.05]] [1; 0].
Proof.
  exists O. split; [lia|]. split; [reflexivity|].
  intros [|[|[|j]]] v Hv; simpl in Hv; try discriminate;
    injection Hv as <-; unfold norm, pow_2, sum; cbn [map fold_right Nat.eqb];
    rewrite Rplus_0_r, sqrt_pow2 by lra; lra.
Defined.

Lemma margin_loss_zero_witness :
  margin_loss net_reconstructing scenario_input scenario_target true = Ok 0 /\
  margin_loss net_reconstructing scenario_input scenario_target false = Ok 0.
Proof.
  split;
    apply (margin_loss_zero net_reconstructing scenario_input scenario_target _ 1 2 1);
    try reflexivity; try lia;
    repeat constructor; exact scenario_margins_met.
Defined.

(** ** The masking step *)

(** C3. On an output-capsule tensor of shape [batch, n, d] (the network's is
    [batch, 10, 16]) the masking step of [reconstruct] produces a tensor of
    the same shape in which, for each sample, the capsule at the winning
    index is the input capsule unchanged and the other [n - 1] capsules are
    zero vectors; the winning index is the argmax of the capsule norms. *)
Theorem masking_keeps_winner (self : CapsuleNetwork) (input : tensor3)
    (batch n d : nat) :
  has_shape3 input batch n d = true ->
  (0 < batch)%nat -> (0 < n)%nat ->
  exists masked,
    mask_capsules self input = Ok masked /\
    has_shape3 masked batch n d = true /\
    forall b sample, nth_error input b = Some sample ->
      exists masked_b k,
        nth_error masked b = Some masked_b /\
        is_first_max (map norm sample) k /\
        (k < n)%nat /\
        nth_error masked_b k = nth_error sample k /\
        forall j, (j < n)%nat -> j <> k -> nth_error masked_b j = Some (zeros d).
Proof.
  intros Hshape Hbatch Hn.
  pose proof (has_shape3_nonempty input batch n d Hbatch Hshape) as Hne.
  pose proof (has_shape3_samples_nonempty input batch n d Hn Hshape) as Hsamples.
  exists (map mask_winner input). split; [|split].
  - apply mask_capsules_eq; assumption.
  - apply has_shape3_map; [|exact Hshape].
    intros s. apply mask_winner_shape.
  - intros b sample Hb.
    assert (Hin : In sample input) by (eapply nth_error_In; exact Hb).
    rewrite Forall_forall in Hsamples. pose proof (Hsamples sample Hin) as Hsne.
    apply has_shape3_spec in Hshape as [_ Hshapes]. rewrite Forall_forall in Hshapes.
    pose proof (Hshapes sample Hin) as Hs. apply has_shape2_spec in Hs as [Hlen Hrows].
    pose proof (winner_lt sample Hsne) as Hw.
    exists (mask_winner sample), (winner sample).
    split; [apply map_nth_error; exact Hb|].
    split; [apply argmax_index_first_max; destruct sample; [congruence | discriminate]|].
    split; [lia|]. split.
    + destruct (nth_error sample (winner sample)) as [v|] eqn:Hv.
      * rewrite (mask_winner_nth_error sample _ v Hv), Nat.eqb_refl. reflexivity.
      * apply nth_error_None in Hv. lia.
    + intros j Hj Hjk.
      destruct (nth_error sample j) as [v|] eqn:Hv.
      * rewrite (mask_winner_nth_error sample j v Hv).
        apply Nat.eqb_neq in Hjk. rewrite Hjk.
        rewrite Forall_forall in Hrows.
        rewrite (Hrows v (nth_error_In _ _ Hv)). reflexivity.
      * apply nth_error_None in Hv. lia.
Qed.

Lemma masking_keeps_winner_witness :
  exists masked,
    mask_capsules net_reconstructing scenario_input = Ok masked /\
    has_shape3 masked 1 2 1 = true /\
    forall b sample, nth_error scenario_input b = Some sample ->
      exists masked_b k,
        nth_error masked b = Some masked_b /\
        is_first_max (map norm sample) k /\
        (k < 2)%nat /\
        nth_error masked_b k = nth_error sample k /\
        forall j, (j < 2)%nat -> j <> k -> nth_error masked_b j = Some (zeros 1).
Proof.
  apply (masking_keeps_winner net_reconstructing scenario_input 1 2 1);
    [reflexivity | lia | lia].
Defined.

(** ** The reconstruction loss *)

(** C4. With the reconstruction enabled, [reconstruction_loss] is the sum of
    the squared pixel-wise differences between the decoder's reconstruction
    of the masked capsules and the images, taken per sample, reduced over
    the batch (mean if [size_average], else sum) and multiplied by 0.0005. *)
Theorem reconstruction_loss_formula (self : CapsuleNetwork) (dec : Decoder)
    (images reconstructed : tensor4) (input : tensor3) (size_average : bool)
    (batch n d c h w : nat) :
  has_reconstruction self = true ->
  decoder self = Some dec ->
  has_shape3 input batch n d = true ->
  (0 < batch)%nat -> (0 < n)%nat ->
  Decoder_forward dec (masked_capsules input) = Ok reconstructed ->
  has_shape4 reconstructed batch c h w = true ->
  has_shape4 images batch c h w = true ->
  reconstruction_loss self images input size_average =
  Ok (reduce size_average (zip_with squared_error reconstructed images) * 0.0005).
Proof.
  intros Hrec Hdec Hinput Hbatch Hn Hforward Hr Hi.
  apply (reconstruction_loss_eq self images reconstructed input size_average batch c h w);
    try assumption.
  rewrite (reconstruct_eq self dec input batch n d); assumption.
Qed.

Lemma reconstruction_loss_formula_witness :
  reconstruction_loss net_reconstructing scenario_images scenario_input true =
  Ok (reduce true
        (zip_with squared_error
           (map (fun _ => [[[0.5; 0.5]]]) (masked_capsules scenario_input))
           scenario_images) * 0.0005).
Proof.
  apply (reconstruction_loss_formula net_reconstructing flat_decoder scenario_images
           _ scenario_input true 1 2 1 1 1 2);
    try reflexivity; lia.
Defined.

(** ** The total loss *)

Lemma margin_loss_with_decoder (self : CapsuleNetwork) (d : option Decoder)
    (input : tensor3) (target : tensor2) (size_average : bool) :
  margin_loss (with_decoder self d) input target size_average =
  margin_loss self input target size_average.
Proof. reflexivity. Qed.

Lemma item_zero_on_device (self : CapsuleNetwork) :
  item (if (0 <=? gpu self)%Z then cuda (zeros 1) (gpu self) else zeros 1) = 0.
Proof. rewrite zero_on_device. reflexivity. Qed.

(** [loss], by the outcome of its parts. *)
Lemma loss_cases (self : CapsuleNetwork) (images : tensor4) (input : tensor3)
    (target : tensor2) (size_average : bool) :
  loss self images input target size_average =
  match margin_loss self input target size_average with
  | Raise e => Raise e
  | Ok margin =>
      if has_reconstruction self then
        match reconstruction_loss self images input size_average with
        | Raise e => Raise e
        | Ok reconstruction => Ok (margin + reconstruction, margin, reconstruction)
        end
      else Ok (margin + 0, margin, 0)
  end.
Proof.
  unfold loss.
  destruct (margin_loss self input target size_average) as [m|e]; [|reflexivity].
  cbn [bind]. destruct (has_reconstruction self).
  - destruct (reconstruction_loss self images input size_average); reflexivity.
  - rewrite item_zero_on_device. reflexivity.
Qed.

(** C5. Whenever [loss] returns, the total is the margin loss plus the
    reconstruction loss.  [loss] returns as soon as its parts do; on a
    network without reconstruction the reconstruction part is zero, the
    total is the margin loss alone, and the [decoder] attribute plays no
    part in the result. *)
Theorem loss_is_margin_plus_reconstruction (self : CapsuleNetwork)
    (images : tensor4) (input : tensor3) (target : tensor2) (size_average : bool) :
  (forall total margin reconstruction,
     loss self images input target size_average = Ok (total, margin, reconstruction) ->
     total = margin + reconstruction /\
     margin_loss self input target size_average = Ok margin /\
     (has_reconstruction self = true ->
      reconstruction_loss self images input size_average = Ok reconstruction) /\
     (has_reconstruction self = false -> reconstruction = 0 /\ total = margin)) /\
  (forall margin reconstruction,
     has_reconstruction self = true ->
     margin_loss self input target size_average = Ok margin ->
     reconstruction_loss self images input size_average = Ok reconstruction ->
     loss self images input target size_average =
     Ok (margin + reconstruction, margin, reconstruction)) /\
  (forall margin,
     has_reconstruction self = false ->
     margin_loss self input target size_average = Ok margin ->
     loss self images input target size_average = Ok (margin, margin, 0)) /\
  (has_reconstruction self = false ->
   forall d,
     loss (with_decoder self d) images input target size_average =
     loss self images input target size_average).
Proof.
  split; [|split; [|split]].
  - intros total margin reconstruction H. rewrite loss_cases in H.
    destruct (margin_loss self input target size_average) as [m|e]; [|discriminate].
    destruct (has_reconstruction self).
    + destruct (reconstruction_loss self images input size_average) as [r|e];
        [|discriminate].
      injection H as <- <- <-.
      split; [reflexivity|]. split; [reflexivity|]. split; [reflexivity | discriminate].
    + injection H as <- <- <-.
      split; [reflexivity|]. split; [reflexivity|]. split; [discriminate|].
      intros _. split; [reflexivity | lra].
  - intros margin reconstruction Hrec Hm Hr.
    rewrite loss_cases, Hm, Hrec, Hr. reflexivity.
  - intros margin Hrec Hm.
    rewrite loss_cases, Hm, Hrec, Rplus_0_r. reflexivity.
  - intros Hrec d. unfold loss. rewrite margin_loss_with_decoder.
    simpl has_reconstruction. rewrite Hrec. reflexivity.
Qed.

Lemma scenario_margin_loss (self : CapsuleNetwork) (size_average : bool) :
  margin_loss self scenario_input scenario_target size_average =
  Ok (margin_loss_spec scenario_input scenario_target size_average).
Proof.
  apply (margin_loss_eq self scenario_input scenario_target size_average 2).
  - discriminate.
  - repeat constructor.
  - reflexivity.
Defined.

Lemma scenario_reconstruction_loss (size_average : bool) :
  reconstruction_loss net_reconstructing scenario_images scenario_input size_average =
  Ok (reconstruction_loss_spec
        (map (fun _ => [[[0.5; 0.5]]]) (masked_capsules scenario_input))
        scenario_images size_average).
Proof.
  apply (reconstruction_loss_eq net_reconstructing scenario_images _ scenario_input
           size_average 1 1 1 2); try reflexivity; [|lia].
  rewrite (reconstruct_eq net_reconstructing flat_decoder scenario_input 1 2 1);
    try reflexivity; lia.
Defined.

Lemma loss_is_margin_plus_reconstruction_witness :
  loss net_plain scenario_images scenario_input scenario_target true =
  Ok (margin_loss_spec scenario_input scenario_target true,
      margin_loss_spec scenario_input scenario_target true, 0) /\
  loss net_reconstructing scenario_images scenario_input scenario_target true =
  Ok (margin_loss_spec scenario_input scenario_target true +
      reconstruction_loss_spec
        (map (fun _ => [[[0.5; 0.5]]]) (masked_capsules scenario_input))
        scenario_images true,
      margin_loss_spec scenario_input scenario_target true,
      reconstruction_loss_spec
        (map (fun _ => [[[0.5; 0.5]]]) (masked_capsules scenario_input))
        scenario_images true).
Proof.
  split.
  - apply (proj1 (proj2 (proj2
             (loss_is_margin_plus_reconstruction net_plain scenario_images
                scenario_input scenario_target true)))).
    + reflexivity.
    + apply scenario_margin_loss.
  - apply (proj1 (proj2
             (loss_is_margin_plus_reconstruction net_reconstructing scenario_images
                scenario_input scenario_target true))).
    + reflexivity.
    + apply scenario_margin_loss.
    + apply scenario_reconstruction_loss.
Defined.

(** C10. On a network without reconstruction the result of [loss] does not
    depend on the images. *)
Theorem loss_ignores_images (self : CapsuleNetwork) (images images' : tensor4)
    (input : tensor3) (target : tensor2) (size_average : bool) :
  has_reconstruction self = false ->
  loss self images input target size_average =
  loss self images' input target size_average.
Proof.
  intros Hrec. unfold loss. rewrite Hrec. reflexivity.
Qed.

Lemma loss_ignores_images_witness :
  loss net_plain scenario_images scenario_input scenario_target true =
  loss net_plain other_images scenario_input scenario_target true.
Proof.
  apply (loss_ignores_images net_plain scenario_images other_images); reflexivity.
Defined.

(** ** Construction and the disabled reconstruction path *)

Lemma CapsuleNetwork_init_fields (fresh : Decoder) (iters : Z) (reconstruct : bool)
    (g : Z) (self : CapsuleNetwork) :
  CapsuleNetwork_init fresh iters reconstruct g = Ok self ->
  gpu self = g /\ has_reconstruction self = reconstruct /\
  decoder self = (if reconstruct then Some fresh else None).
Proof.
  unfold CapsuleNetwork_init. destruct (DigitCaps_init iters g) as [dc|e]; simpl.
  - intros H. injection H as <-. simpl. auto.
  - discriminate.
Qed.

Lemma CapsuleNetwork_init_positive (fresh : Decoder) (iters : Z) (reconstruct : bool)
    (g : Z) :
  (0 < iters)%Z -> returns (CapsuleNetwork_init fresh iters reconstruct g).
Proof.
  intros Hpos. unfold CapsuleNetwork_init, DigitCaps_init.
  destruct (Z.leb_spec iters 0); [lia|]. simpl. eexists. reflexivity.
Qed.

(** C7. On a network without reconstruction every call of [reconstruct]
    raises an AssertionError whose message says that the reconstruction
    path is disabled; the decoder is not reached. *)
Theorem reconstruct_disabled_raises (self : CapsuleNetwork) (input : tensor3) :
  has_reconstruction self = false ->
  reconstruct self input = Raise (AssertionError reconstruction_disabled).
Proof.
  intros Hrec. unfold reconstruct. rewrite Hrec. reflexivity.
Qed.

Lemma reconstruct_disabled_raises_witness :
  CapsuleNetwork_init flat_decoder 3 false (-1) = Ok net_plain /\
  reconstruct net_plain scenario_input = Raise (AssertionError reconstruction_disabled).
Proof.
  split; [reflexivity|].
  apply (reconstruct_disabled_raises net_plain scenario_input). reflexivity.
Defined.

(** C8. Constructing a network with a non-positive [routing_iters] raises
    an error: the digit-capsule layer rejects it and the constructor passes
    the error on. *)
Theorem nonpositive_routing_iters_rejected (fresh : Decoder) (iters : Z)
    (reconstruct : bool) (g : Z) :
  (iters <= 0)%Z ->
  exists msg, CapsuleNetwork_init fresh iters reconstruct g = Raise (ValueError msg).
Proof.
  intros Hle. unfold CapsuleNetwork_init, DigitCaps_init.
  destruct (Z.leb_spec iters 0); [|lia]. simpl. eexists. reflexivity.
Qed.

Lemma nonpositive_routing_iters_rejected_witness :
  exists msg, CapsuleNetwork_init flat_decoder 0 true 0 = Raise (ValueError msg).
Proof.
  apply (nonpositive_routing_iters_rejected flat_decoder 0 true 0). lia.
Defined.

(** ** The reduction modes *)

Lemma reduce_mean_sum {A B : Type} (f : A -> B -> R) (a : list A) (b : list B)
    (batch : nat) :
  length a = batch -> length b = batch ->
  reduce true (zip_with f a b) = reduce false (zip_with f a b) / INR batch.
Proof.
  intros Ha Hb. unfold reduce. rewrite zip_with_length by congruence.
  rewrite Ha. reflexivity.
Qed.

Lemma margin_loss_spec_mean (input : tensor3) (target : tensor2) (batch n d : nat) :
  has_shape3 input batch n d = true ->
  has_shape2 target batch n = true ->
  margin_loss_spec input target true = margin_loss_spec input target false / INR batch.
Proof.
  intros Hinput Htarget. apply has_shape3_spec in Hinput as [Hli _].
  apply has_shape2_spec in Htarget as [Hlt _].
  apply reduce_mean_sum; assumption.
Qed.

Lemma reconstruction_loss_spec_mean (reconstructed images : tensor4) (batch c h w : nat) :
  has_shape4 reconstructed batch c h w = true ->
  has_shape4 images batch c h w = true ->
  reconstruction_loss_spec reconstructed images true =
  reconstruction_loss_spec reconstructed images false / INR batch.
Proof.
  intros Hr Hi. apply has_shape4_spec in Hr as [Hlr _].
  apply has_shape4_spec in Hi as [Hli _].
  unfold reconstruction_loss_spec.
  rewrite (reduce_mean_sum squared_error reconstructed images batch Hlr Hli).
  unfold Rdiv. ring.
Qed.

(** C6. On a batch of [batch] samples, the margin loss, the reconstruction
    loss and the total loss computed with [size_average = True] are those
    computed with [size_average = False] divided by [batch]. *)
Theorem mean_is_sum_over_batch (self : CapsuleNetwork) (dec : Decoder)
    (images reconstructed : tensor4) (input : tensor3) (target : tensor2)
    (batch n d c h w : nat) :
  has_shape3 input batch n d = true ->
  has_shape2 target batch n = true ->
  (0 < batch)%nat ->
  (has_reconstruction self = true ->
   (0 < n)%nat /\ decoder self = Some dec /\
   Decoder_forward dec (masked_capsules input) = Ok reconstructed /\
   has_shape4 reconstructed batch c h w = true /\
   has_shape4 images batch c h w = true) ->
  exists total margin reconstruction,
    loss self images input target false = Ok (total, margin, reconstruction) /\
    loss self images input target true =
      Ok (total / INR batch, margin / INR batch, reconstruction / INR batch) /\
    margin_loss self input target false = Ok margin /\
    margin_loss self input target true = Ok (margin / INR batch) /\
    (has_reconstruction self = true ->
     reconstruction_loss self images input false = Ok reconstruction /\
     reconstruction_loss self images input true = Ok (reconstruction / INR batch)).
Proof.
  intros Hinput Htarget Hbatch Hdecoder.
  pose proof (has_shape3_nonempty input batch n d Hbatch Hinput) as Hne.
  pose proof (has_shape3_rows input batch n d Hinput) as [Hl Hrows].
  assert (Hmargin : forall size_average,
            margin_loss self input target size_average =
            Ok (margin_loss_spec input target size_average)).
  { intros size_average. apply (margin_loss_eq self input target size_average n Hne Hrows).
    rewrite Hl. exact Htarget. }
  pose proof (margin_loss_spec_mean input target batch n d Hinput Htarget) as Hmean.
  destruct (has_reconstruction self) eqn:Hrec.
  - destruct (Hdecoder eq_refl) as [Hn [Hdec [Hforward [Hr Hi]]]].
    assert (Hreconstruction : forall size_average,
              reconstruction_loss self images input size_average =
              Ok (reconstruction_loss_spec reconstructed images size_average)).
    { intros size_average.
      apply (reconstruction_loss_eq self images reconstructed input size_average
               batch c h w); try assumption.
      rewrite (reconstruct_eq self dec input batch n d); assumption. }
    pose proof (reconstruction_loss_spec_mean reconstructed images batch c h w Hr Hi)
      as Hrmean.
    exists (margin_loss_spec input target false +
            reconstruction_loss_spec reconstructed images false),
           (margin_loss_spec input target false),
           (reconstruction_loss_spec reconstructed images false).
    unfold loss. rewrite Hrec, !Hmargin, !Hreconstruction. cbn [bind].
    rewrite Hmean, Hrmean, <- Rdiv_plus_distr.
    repeat split; reflexivity.
  - exists (margin_loss_spec input target false), (margin_loss_spec input target false), 0.
    unfold loss. rewrite Hrec, !Hmargin. cbn [bind].
    rewrite item_zero_on_device. cbn [bind]. rewrite Hmean.
    rewrite !Rplus_0_r.
    replace (0 / INR batch) with 0 by (unfold Rdiv; rewrite Rmult_0_l; reflexivity).
    repeat split; try reflexivity; discriminate.
Qed.

Lemma mean_is_sum_over_batch_witness :
  exists total margin reconstruction,
    loss net_reconstructing scenario_images scenario_input scenario_target false =
      Ok (total, margin, reconstruction) /\
    loss net_reconstructing scenario_images scenario_input scenario_target true =
      Ok (total / INR 1, margin / INR 1, reconstruction / INR 1) /\
    margin_loss net_reconstructing scenario_input scenario_target false = Ok margin /\
    margin_loss net_reconstructing scenario_input scenario_target true =
      Ok (margin / INR 1) /\
    (has_reconstruction net_reconstructing = true ->
     reconstruction_loss net_reconstructing scenario_images scenario_input false =
       Ok reconstruction /\
     reconstruction_loss net_reconstructing scenario_images scenario_input true =
       Ok (reconstruction / INR 1)).
Proof.
  apply (mean_is_sum_over_batch net_reconstructing flat_decoder scenario_images
           (map (fun _ => [[[0.5; 0.5]]]) (masked_capsules scenario_input))
           scenario_input scenario_target 1 2 1 1 1 2);
    try reflexivity; try lia.
  intros _. repeat split; try reflexivity. lia.
Defined.

(** ** Broadcasting tensors of different shapes *)

Lemma mapM_returns {A B : Type} (f : A -> result B) (P : B -> Prop) (l : list A) :
  (forall x, In x l -> exists y, f x = Ok y /\ P y) ->
  exists ys, mapM f l = Ok ys /\ length ys = length l /\ Forall P ys.
Proof.
  induction l as [|a l IH]; intros H; simpl.
  - exists []. auto.
  - destruct (H a (or_introl eq_refl)) as [y [Hy HP]].
    destruct IH as [ys [Hys [Hl HF]]]; [intros x Hx; apply H; right; exact Hx|].
    exists (y :: ys). rewrite Hy, Hys. simpl. auto.
Qed.

Lemma broadcast1_returns (f : R -> R -> R) (a b : tensor1) :
  length a = length b \/ length a = 1%nat \/ length b = 1%nat ->
  exists c, broadcast1 f a b = Ok c /\
            length c = broadcast_size (length a) (length b).
Proof.
  intros Hcompat. unfold broadcast1, broadcast, broadcast_size.
  destruct (Nat.eqb_spec (length a) (length b)) as [Heq|Hneq].
  - exists (zip_with f a b). split.
    + apply (mapM_map _ (fun p => f (fst p) (snd p))). reflexivity.
    + rewrite zip_with_length by exact Heq.
      destruct (Nat.eqb_spec (length a) 1); congruence.
  - destruct a as [|x [|x' a]].
    + destruct b as [|y [|y' b]]; simpl in *; try lia.
      exists []. split; reflexivity.
    + exists (map (f x) b). split.
      * apply (mapM_map _ (f x)). reflexivity.
      * rewrite length_map. reflexivity.
    + destruct b as [|y [|y' b]]; simpl in Hcompat, Hneq; try lia.
      exists (map (fun x => f x y) (x :: x' :: a)). split.
      * apply (mapM_map _ (fun x => f x y)). reflexivity.
      * rewrite length_map. reflexivity.
Qed.

Lemma broadcast1_raises (f : R -> R -> R) (a b : tensor1) :
  length a <> length b -> length a <> 1%nat -> length b <> 1%nat ->
  raises_RuntimeError (broadcast1 f a b).
Proof.
  intros Hneq Ha Hb. unfold broadcast1, broadcast.
  destruct (Nat.eqb_spec (length a) (length b)) as [Heq|_]; [contradiction|].
  destruct a as [|x [|x' a]], b as [|y [|y' b]]; simpl in *; try lia;
    eexists; reflexivity.
Qed.

Lemma broadcast2_returns (f : R -> R -> R) (a b : tensor2) (batch m n : nat) :
  has_shape2 a batch m = true -> has_shape2 b batch n = true ->
  m = n \/ m = 1%nat \/ n = 1%nat ->
  exists c, broadcast2 f a b = Ok c /\
            has_shape2 c batch (broadcast_size m n) = true.
Proof.
  intros Ha Hb Hcompat.
  apply has_shape2_spec in Ha as [Hla Hfa]. apply has_shape2_spec in Hb as [Hlb Hfb].
  unfold broadcast2, broadcast.
  replace (length a =? length b)%nat with true by (symmetry; apply Nat.eqb_eq; congruence).
  destruct (mapM_returns (fun p => broadcast1 f (fst p) (snd p))
              (fun r => length r = broadcast_size m n) (combine a b))
    as [c [Hc [Hlc Hfc]]].
  - intros [x y] Hin. simpl. rewrite Forall_forall in Hfa, Hfb.
    pose proof (Hfa x (in_combine_l _ _ _ _ Hin)) as Hx.
    pose proof (Hfb y (in_combine_r _ _ _ _ Hin)) as Hy.
    destruct (broadcast1_returns f x y) as [r [Hr Hlr]]; [rewrite Hx, Hy; exact Hcompat|].
    exists r. rewrite Hx, Hy in Hlr. auto.
  - exists c. split; [exact Hc|]. apply has_shape2_spec. split; [|exact Hfc].
    rewrite Hlc, length_combine, Hla, Hlb. apply Nat.min_id.
Qed.

Lemma broadcast2_raises (f : R -> R -> R) (a b : tensor2) (batch m n : nat) :
  (0 < batch)%nat ->
  has_shape2 a batch m = true -> has_shape2 b batch n = true ->
  m <> n -> m <> 1%nat -> n <> 1%nat ->
  raises_RuntimeError (broadcast2 f a b).
Proof.
  intros Hbatch Ha Hb Hneq Hm Hn.
  apply has_shape2_spec in Ha as [Hla Hfa]. apply has_shape2_spec in Hb as [Hlb Hfb].
  unfold broadcast2, broadcast.
  replace (length a =? length b)%nat with true by (symmetry; apply Nat.eqb_eq; congruence).
  destruct a as [|x a]; [simpl in Hla; lia|].
  destruct b as [|y b]; [simpl in Hlb; lia|].
  apply Forall_cons_iff in Hfa as [Hx _]. apply Forall_cons_iff in Hfb as [Hy _].
  destruct (broadcast1_raises f x y) as [msg Hmsg]; try congruence.
  exists msg. simpl. rewrite Hmsg. reflexivity.
Qed.

Lemma margin_loss_broadcasts (self : CapsuleNetwork) (input : tensor3)
    (target : tensor2) (size_average : bool) (n m : nat) :
  input <> [] ->
  Forall (fun s => length s = n) input ->
  has_shape2 target (length input) m = true ->
  m = n \/ m = 1%nat \/ n = 1%nat ->
  returns (margin_loss self input target size_average).
Proof.
  intros Hne Hrows Htarget Hcompat.
  rewrite (margin_loss_hinges self input target size_average n Hne Hrows).
  unfold mul2, add2.
  destruct (broadcast2_returns Rmult target
              (map2d pow_2 (map (map (fun v => Rmax (0.9 - norm v) 0)) input))
              (length input) m n) as [present [Hpresent Hshape_p]]; try assumption.
  { apply has_shape2_map2d, has_shape2_norms. exact Hrows. }
  destruct (broadcast2_returns Rmult
              (map2d (fun x => 0.5 * x) (map2d (fun x => 1.0 - x) target))
              (map2d pow_2 (map (map (fun v => Rmax (norm v - 0.1) 0)) input))
              (length input) m n) as [absent [Habsent Hshape_a]]; try assumption.
  { repeat apply has_shape2_map2d. exact Htarget. }
  { apply has_shape2_map2d, has_shape2_norms. exact Hrows. }
  rewrite Hpresent, Habsent. cbn [bind].
  rewrite (broadcast2_same Rplus present absent _ _ Hshape_p Hshape_a). cbn [bind].
  eexists. reflexivity.
Qed.

Lemma margin_loss_size_mismatch (self : CapsuleNetwork) (input : tensor3)
    (target : tensor2) (size_average : bool) (n m : nat) :
  input <> [] ->
  Forall (fun s => length s = n) input ->
  has_shape2 target (length input) m = true ->
  m <> n -> m <> 1%nat -> n <> 1%nat ->
  raises_RuntimeError (margin_loss self input target size_average).
Proof.
  intros Hne Hrows Htarget Hneq Hm Hn.
  rewrite (margin_loss_hinges self input target size_average n Hne Hrows).
  unfold mul2.
  destruct (broadcast2_raises Rmult target
              (map2d pow_2 (map (map (fun v => Rmax (0.9 - norm v) 0)) input))
              (length input) m n) as [msg Hmsg]; try assumption.
  - destruct input; [congruence | simpl; lia].
  - apply has_shape2_map2d, has_shape2_norms. exact Hrows.
  - exists msg. rewrite Hmsg. reflexivity.
Qed.

Lemma norm_zeros (n : nat) : norm (zeros n) = 0.
Proof.
  unfold norm, zeros. replace (sum (map pow_2 (repeat 0 n))) with 0.
  - apply sqrt_0.
  - symmetry. apply sum_zeros. rewrite Forall_map. apply Forall_forall.
    intros x Hx. apply repeat_spec in Hx. subst x. unfold pow_2. lra.
Qed.

(** ** Shapes that disagree *)

(** C9 does not hold as stated: ten capsules of dimension 16 and a target
    with a single column, which is not the [1, 10] the capsules call for,
    give the number 8.1 and no error. *)
Lemma shape_mismatch_not_rejected :
  has_shape3 zero_capsules 1 10 16 = true /\
  has_shape2 narrow_target 1 10 = false /\
  margin_loss net_plain zero_capsules narrow_target true = Ok 8.1.
Proof.
  split; [reflexivity|]. split; [reflexivity|].
  rewrite (margin_loss_hinges net_plain zero_capsules narrow_target true 10);
    [| discriminate | repeat constructor].
  unfold zero_capsules, narrow_target.
  set (c := zeros 16).
  cbn [repeat map map2d mul2 broadcast2 broadcast broadcast1 lift2 length Nat.eqb
       combine mapM bind fst snd add2 sum_dim1 sum fold_right reduce].
  subst c. rewrite norm_zeros.
  rewrite (Rmax_left (0.9 - 0) 0), (Rmax_right (0 - 0.1) 0) by lra.
  unfold pow_2. simpl INR. f_equal. lra.
Qed.

(** C9, amended. [margin_loss] checks no shape of its own.  For capsules of
    shape [batch, n, d], whatever [d] is, and a target of shape [batch, m]
    it returns a number whenever [m] and [n] are equal or one of them is 1
    (the smaller tensor is repeated along the class axis); it raises the
    tensor library's size-mismatch error only when [m] and [n] differ and
    neither is 1. *)
Theorem margin_loss_shape_handling (self : CapsuleNetwork) (input : tensor3)
    (target : tensor2) (size_average : bool) (batch n d m : nat) :
  has_shape3 input batch n d = true ->
  has_shape2 target batch m = true ->
  (0 < batch)%nat ->
  (m = n \/ m = 1%nat \/ n = 1%nat ->
   returns (margin_loss self input target size_average)) /\
  (m <> n -> m <> 1%nat -> n <> 1%nat ->
   raises_RuntimeError (margin_loss self input target size_average)).
Proof.
  intros Hinput Htarget Hbatch.
  pose proof (has_shape3_nonempty input batch n d Hbatch Hinput) as Hne.
  apply has_shape3_rows in Hinput as [Hl Hrows].
  rewrite <- Hl in Htarget. split.
  - intros Hcompat.
    apply (margin_loss_broadcasts self input target size_average n m); assumption.
  - intros Hneq Hm Hn.
    apply (margin_loss_size_mismatch self input target size_average n m); assumption.
Qed.

Lemma margin_loss_shape_handling_witness :
  returns (margin_loss net_plain scenario_input narrow_target true) /\
  raises_RuntimeError (margin_loss net_plain scenario_input wide_target true).
Proof.
  split.
  - apply (proj1 (margin_loss_shape_handling net_plain scenario_input narrow_target
                    true 1 2 1 1 eq_refl eq_refl Nat.lt_0_1)).
    right. left. reflexivity.
  - apply (proj2 (margin_loss_shape_handling net_plain scenario_input wide_target
                    true 1 2 1 3 eq_refl eq_refl Nat.lt_0_1)); lia.
Defined.

(** ** Worked examples *)

Lemma norm_singleton (x : R) : 0 <= x -> norm [x] = x.
Proof.
  intros Hx. unfold norm, pow_2, sum. cbn [map fold_right].
  rewrite Rplus_0_r. apply sqrt_pow2. exact Hx.
Qed.

(** Norms 0.5 and 0.3 with target class 0:
    (0.9 - 0.5)^2 + 0.5 * (0.3 - 0.1)^2 = 0.18. *)
Example margin_loss_half_way :
  margin_loss net_plain [[[0.5]; [0.3]]] [[1; 0]] false = Ok 0.18.
Proof.
  rewrite (margin_loss_eq net_plain _ _ false 2);
    [| discriminate | repeat constructor | reflexivity].
  unfold margin_loss_spec, reduce, sample_loss, zip_with, class_loss, sum.
  cbn [map combine fst snd fold_right].
  rewrite !norm_singleton by lra.
  f_equal. unfold Rmax. repeat destruct Rle_dec; lra.
Qed.

(** The second of three capsules is the longest and is the one kept. *)
Example masking_second_of_three :
  mask_capsules net_plain [[[0.3]; [0.95]; [0.1]]] = Ok [[[0]; [0.95]; [0]]].
Proof.
  rewrite mask_capsules_eq; [| discriminate | repeat constructor; discriminate].
  assert (Hw : winner [[0.3]; [0.95]; [0.1]] = 1%nat).
  { unfold winner, argmax_index. cbn [map]. rewrite !norm_singleton by lra.
    unfold argmax_from. repeat destruct Rlt_dec; try lra; reflexivity. }
  cbn [map]. unfold mask_winner. rewrite Hw. reflexivity.
Qed.

(** Of two capsules of equal norm the first is kept. *)
Example masking_tie :
  mask_capsules net_plain [[[0.5]; [0.5]]] = Ok [[[0.5]; [0]]].
Proof.
  rewrite mask_capsules_eq; [| discriminate | repeat constructor; discriminate].
  assert (Hw : winner [[0.5]; [0.5]] = 0%nat).
  { unfold winner, argmax_index. cbn [map]. rewrite !norm_singleton by lra.
    unfold argmax_from. repeat destruct Rlt_dec; try lra; reflexivity. }
  cbn [map]. unfold mask_winner. rewrite Hw. reflexivity.
Qed.

(** Image [0.25, 0.75] against the reconstruction [0.5, 0.5]:
    (0.0625 + 0.0625) * 0.0005. *)
Example reconstruction_loss_flat :
  reconstruction_loss net_reconstructing scenario_images scenario_input false =
  Ok 0.0000625.
Proof.
  rewrite scenario_reconstruction_loss. f_equal.
  unfold reconstruction_loss_spec, reduce, masked_capsules, scenario_input,
    scenario_images, squared_error, zip_with, flatten3, flatten2, sum.
  cbn [map combine fst snd fold_right concat app]. lra.
Qed.

(** A positive [routing_iters] is accepted, and the flag is stored. *)
Example construction_accepts_default :
  CapsuleNetwork_init flat_decoder 3 true 0 = Ok net_reconstructing.
Proof. reflexivity. Qed.

(** ** Results of binds and of [mapM] *)

Lemma mapM_length {A B : Type} (f : A -> result B) (l : list A) (l' : list B) :
  mapM f l = Ok l' -> length l' = length l.
Proof.
  revert l'. induction l as [|a l IH]; simpl; intros l' H.
  - injection H as <-. reflexivity.
  - bind_ok H b Hb. bind_ok H bs Hbs. injection H as <-.
    simpl. f_equal. apply IH. reflexivity.
Qed.

Lemma mapM_Forall {A B : Type} (f : A -> result B) (P : A -> Prop) (Q : B -> Prop)
    (l : list A) (l' : list B) :
  (forall x y, P x -> f x = Ok y -> Q y) ->
  Forall P l -> mapM f l = Ok l' -> Forall Q l'.
Proof.
  intros Hf HP. revert l'. induction HP as [|a l Ha _ IH]; simpl; intros l' H.
  - injection H as <-. constructor.
  - bind_ok H b Hb. bind_ok H bs Hbs. injection H as <-.
    constructor; [apply (Hf a b Ha Hb) | apply IH; reflexivity].
Qed.

Lemma mapM_each_returns {A B : Type} (f : A -> result B) (l : list A) :
  returns (mapM f l) -> Forall (fun x => returns (f x)) l.
Proof.
  induction l as [|a l IH]; simpl; intros [l' H].
  - constructor.
  - bind_ok H b Hb. bind_ok H bs Hbs. constructor.
    + exists b. exact Hb.
    + apply IH. exists bs. reflexivity.
Qed.

(** ** What broadcasting does to sizes and entries *)

Lemma Forall_combine {A B : Type} (P : A -> Prop) (Q : B -> Prop)
    (a : list A) (b : list B) :
  Forall P a -> Forall Q b -> Forall (fun p => P (fst p) /\ Q (snd p)) (combine a b).
Proof.
  intros Ha Hb. rewrite Forall_forall in *. intros [x y] Hin. simpl. split.
  - apply Ha. eapply in_combine_l. exact Hin.
  - apply Hb. eapply in_combine_r. exact Hin.
Qed.

Lemma broadcast_Forall {A B C : Type} (f : A -> B -> result C)
    (P : A -> Prop) (Q : B -> Prop) (S : C -> Prop)
    (a : list A) (b : list B) (c : list C) :
  (forall x y z, P x -> Q y -> f x y = Ok z -> S z) ->
  Forall P a -> Forall Q b -> broadcast f a b = Ok c -> Forall S c.
Proof.
  intros Hf Ha Hb. unfold broadcast.
  destruct (length a =? length b)%nat.
  - apply (mapM_Forall _ (fun p => P (fst p) /\ Q (snd p))).
    + intros [x y] z [HP HQ]. simpl. apply Hf; assumption.
    + apply Forall_combine; assumption.
  - destruct a as [|x [|x' a]].
    + destruct b as [|y [|y' b]]; try discriminate.
      intros H. injection H as <-. constructor.
    + apply Forall_cons_iff in Ha as [Hx _].
      apply (mapM_Forall _ Q); [|exact Hb]. intros y z. apply Hf. exact Hx.
    + destruct b as [|y [|y' b]]; try discriminate.
      apply Forall_cons_iff in Hb as [Hy _].
      apply (mapM_Forall _ P); [|exact Ha]. intros x0 z Hx0. apply Hf; assumption.
Qed.

Lemma broadcast2_entries (f : R -> R -> R) (P Q S : R -> Prop) (a b c : tensor2) :
  (forall x y, P x -> Q y -> S (f x y)) ->
  entries2 P a -> entries2 Q b -> broadcast2 f a b = Ok c -> entries2 S c.
Proof.
  intros Hf. unfold entries2, broadcast2.
  apply (broadcast_Forall _ (Forall P) (Forall Q)). intros x y z Hx Hy. unfold broadcast1.
  apply (broadcast_Forall _ P Q); [|exact Hx|exact Hy].
  intros u v w Hu Hv Hw. injection Hw as <-. apply Hf; assumption.
Qed.

Lemma broadcast_length {A B C : Type} (f : A -> B -> result C)
    (a : list A) (b : list B) (c : list C) :
  broadcast f a b = Ok c -> length c = broadcast_size (length a) (length b).
Proof.
  unfold broadcast, broadcast_size.
  destruct (Nat.eqb_spec (length a) (length b)) as [Heq|Hneq]; intros H.
  - apply mapM_length in H. rewrite H, length_combine, <- Heq, Nat.min_id.
    destruct (length a =? 1)%nat; reflexivity.
  - destruct a as [|x [|x' a]].
    + destruct b as [|y [|y' b]]; try discriminate.
      injection H as <-. reflexivity.
    + apply mapM_length in H. exact H.
    + destruct b as [|y [|y' b]]; try discriminate.
      apply mapM_length in H. exact H.
Qed.

Lemma entries2_map2d (f : R -> R) (P Q : R -> Prop) (t : tensor2) :
  (forall x, P x -> Q (f x)) -> entries2 P t -> entries2 Q (map2d f t).
Proof.
  intros Hf Ht. unfold entries2, map2d in *. rewrite Forall_map.
  eapply Forall_impl; [|exact Ht]. intros r Hr. rewrite Forall_map.
  eapply Forall_impl; [|exact Hr]. exact Hf.
Qed.

Lemma entries2_squares (t : tensor2) : entries2 (fun x => 0 <= x) (map2d pow_2 t).
Proof.
  unfold entries2, map2d. rewrite Forall_map. apply Forall_forall. intros r _.
  rewrite Forall_map. apply Forall_forall. intros x _. unfold pow_2.
  apply pow2_ge_0.
Qed.

(** ** Sums and means of non-negative numbers *)

Lemma sum_nonneg (l : list R) : Forall (fun x => 0 <= x) l -> 0 <= sum l.
Proof.
  induction 1 as [|x l Hx _ IH]; simpl; lra.
Qed.

Lemma Rdiv_INR_nonneg (x : R) (n : nat) : 0 <= x -> 0 <= x / INR n.
Proof.
  intros Hx. unfold Rdiv. apply Rmult_le_pos; [exact Hx|].
  destruct n as [|n].
  - simpl INR. rewrite Rinv_0. lra.
  - left. apply Rinv_0_lt_compat. apply lt_0_INR. lia.
Qed.

Lemma reduce_nonneg (size_average : bool) (t : tensor2) :
  entries2 (fun x => 0 <= x) t -> 0 <= reduce size_average (sum_dim1 t).
Proof.
  intros Ht.
  assert (Hsum : 0 <= sum (sum_dim1 t)).
  { apply sum_nonneg. unfold sum_dim1. rewrite Forall_map.
    eapply Forall_impl; [|exact Ht]. intros r Hr. apply sum_nonneg. exact Hr. }
  unfold reduce. destruct size_average; [apply Rdiv_INR_nonneg|]; exact Hsum.
Qed.

(** ** The rows behind a returned loss *)

Lemma chunks_length (count width : nat) (l : list R) :
  length (chunks count width l) = count.
Proof.
  revert l. induction count as [|count IH]; intros l; simpl.
  - reflexivity.
  - rewrite IH. reflexivity.
Qed.

Lemma view_rows_length (elements : list R) (batch_size : nat) (rows : tensor2) :
  view_rows elements batch_size = Ok rows -> length rows = batch_size.
Proof.
  unfold view_rows. destruct (batch_size =? 0)%nat; [discriminate|].
  destruct (length elements mod batch_size =? 0)%nat; [|discriminate].
  intros H. injection H as <-. apply chunks_length.
Qed.

Lemma map2d_length (f : R -> R) (t : tensor2) : length (map2d f t) = length t.
Proof. apply length_map. Qed.

Lemma broadcast_size_same (n : nat) : broadcast_size n n = n.
Proof. unfold broadcast_size. destruct (n =? 1)%nat; reflexivity. Qed.

(** Whenever [margin_loss] returns, there is a tensor [L_c] of class losses,
    one row per sample of the broadcast batch, of which both reduction
    modes are the reductions. *)
Lemma margin_loss_rows (self : CapsuleNetwork) (input : tensor3) (target : tensor2)
    (size_average : bool) (v : R) :
  margin_loss self input target size_average = Ok v ->
  exists L_c : tensor2,
    (forall mode, margin_loss self input target mode = Ok (reduce mode (sum_dim1 L_c))) /\
    length L_c = broadcast_size (length target) (length input) /\
    (entries2 in_unit_interval target -> entries2 (fun x => 0 <= x) L_c).
Proof.
  intros H. unfold margin_loss, size0 in H.
  bind_ok H l0 Hl0. bind_ok H l Hl. bind_ok H r0 Hr0. bind_ok H r Hr.
  bind_ok H present Hpresent. bind_ok H absent Habsent. bind_ok H L_c HL.
  exists L_c. split; [|split].
  - intros mode. unfold margin_loss, size0.
    rewrite Hl0. cbn [bind]. rewrite Hl. cbn [bind].
    rewrite Hr0. cbn [bind]. rewrite Hr. cbn [bind].
    rewrite Hpresent. cbn [bind]. rewrite Habsent. cbn [bind].
    rewrite HL. cbn [bind]. rewrite reduce_eq. reflexivity.
  - unfold view3 in Hl, Hr.
    apply view_rows_length in Hl, Hr.
    apply broadcast_length in Hpresent, Habsent, HL.
    rewrite !map2d_length in *.
    rewrite HL, Hpresent, Habsent, Hl, Hr. apply broadcast_size_same.
  - intros Htarget.
    apply (broadcast2_entries Rplus (fun x => 0 <= x) (fun x => 0 <= x) _
             present absent L_c); [intros; lra | | | exact HL].
    + apply (broadcast2_entries Rmult in_unit_interval (fun x => 0 <= x) _
               target (map2d pow_2 l) present); [| exact Htarget | | exact Hpresent].
      * intros x y [Hx _] Hy. apply Rmult_le_pos; assumption.
      * apply entries2_squares.
    + apply (broadcast2_entries Rmult (fun x => 0 <= x) (fun x => 0 <= x) _
               (map2d (fun x => 0.5 * x) (map2d (fun x => 1.0 - x) target))
               (map2d pow_2 r) absent); [| | | exact Habsent].
      * intros x y Hx Hy. apply Rmult_le_pos; assumption.
      * apply (entries2_map2d _ (fun x => 0 <= x)); [intros; lra|].
        apply (entries2_map2d _ in_unit_interval); [|exact Htarget].
        intros x [_ Hx]. lra.
      * apply entries2_squares.
Qed.

(** Whenever [reconstruction_loss] returns, there is a tensor of squared
    pixel differences, one row per image, of which both reduction modes are
    the weighted reductions. *)
Lemma reconstruction_loss_rows (self : CapsuleNetwork) (images : tensor4)
    (input : tensor3) (size_average : bool) (v : R) :
  reconstruction_loss self images input size_average = Ok v ->
  exists error : tensor2,
    (forall mode, reconstruction_loss self images input mode =
                  Ok (reduce mode (sum_dim1 error) * 0.0005)) /\
    length error = length images /\
    entries2 (fun x => 0 <= x) error.
Proof.
  intros H. unfold reconstruction_loss, size0 in H.
  bind_ok H reconstructed Hrec. bind_ok H diff Hdiff. bind_ok H rows Hrows.
  exists (map2d pow_2 rows). split; [|split].
  - intros mode. unfold reconstruction_loss, size0.
    rewrite Hrec. cbn [bind]. rewrite Hdiff. cbn [bind].
    rewrite Hrows. cbn [bind]. rewrite reduce_eq. reflexivity.
  - rewrite map2d_length. unfold view4 in Hrows.
    apply view_rows_length in Hrows. exact Hrows.
  - apply entries2_squares.
Qed.

(** ** Beyond the claims: signs and sizes of the losses *)

Lemma keepdim_of_norms (f : R -> R) (input : tensor3) :
  map3d f (map3d sqrt (sum_dim2_keepdim (map3d pow_2 input))) =
  map (map (fun x => [f x])) (map (map norm) input).
Proof.
  rewrite v_mag_keepdim, map_map. apply map_ext. intros s.
  rewrite map_map. reflexivity.
Qed.

(** X1. [margin_loss] sees the capsules only through their norms: two
    capsule tensors with the same norms give the same result, value or
    exception, for every target and reduction mode. *)
Theorem margin_loss_depends_on_norms (self : CapsuleNetwork) (input input' : tensor3)
    (target : tensor2) (size_average : bool) :
  map (map norm) input = map (map norm) input' ->
  margin_loss self input target size_average =
  margin_loss self input' target size_average.
Proof.
  intros Hnorms.
  assert (Hlen : length input = length input').
  { rewrite <- (length_map (map norm) input), Hnorms. apply length_map. }
  unfold margin_loss, size0.
  rewrite !keepdim_of_norms, Hnorms, Hlen. reflexivity.
Qed.

Lemma margin_loss_depends_on_norms_witness :
  margin_loss net_plain flipped_input scenario_target true =
  margin_loss net_plain scenario_input scenario_target true.
Proof.
  apply (margin_loss_depends_on_norms net_plain flipped_input scenario_input).
  unfold flipped_input, scenario_input, norm, pow_2, sum. cbn [map fold_right].
  replace ((-0.95) ^ 2) with (0.95 ^ 2) by lra. reflexivity.
Defined.

(** X2. Whenever [margin_loss] returns and the target entries lie between 0
    and 1, the returned loss is not negative, whatever the shapes were and
    however they were broadcast. *)
Theorem margin_loss_nonneg (self : CapsuleNetwork) (input : tensor3)
    (target : tensor2) (size_average : bool) (v : R) :
  entries2 in_unit_interval target ->
  margin_loss self input target size_average = Ok v ->
  0 <= v.
Proof.
  intros Htarget H.
  destruct (margin_loss_rows self input target size_average v H)
    as [L_c [Hmodes [_ Hentries]]].
  rewrite Hmodes in H. injection H as <-.
  apply reduce_nonneg, Hentries, Htarget.
Qed.

Lemma scenario_target_in_unit_interval : entries2 in_unit_interval scenario_target.
Proof.
  repeat (constructor; try (unfold in_unit_interval; lra)).
Defined.

Lemma margin_loss_nonneg_witness :
  0 <= margin_loss_spec scenario_input scenario_target true.
Proof.
  apply (margin_loss_nonneg net_plain scenario_input scenario_target true).
  - exact scenario_target_in_unit_interval.
  - apply scenario_margin_loss.
Defined.

(** X3. Whenever [reconstruction_loss] returns, the returned loss is not
    negative. *)
Theorem reconstruction_loss_nonneg (self : CapsuleNetwork) (images : tensor4)
    (input : tensor3) (size_average : bool) (v : R) :
  reconstruction_loss self images input size_average = Ok v ->
  0 <= v.
Proof.
  intros H.
  destruct (reconstruction_loss_rows self images input size_average v H)
    as [error [Hmodes [_ Hentries]]].
  rewrite Hmodes in H. injection H as <-.
  apply Rmult_le_pos; [apply reduce_nonneg, Hentries | lra].
Qed.

Lemma reconstruction_loss_nonneg_witness :
  0 <= reconstruction_loss_spec
         (map (fun _ => [[[0.5; 0.5]]]) (masked_capsules scenario_input))
         scenario_images true.
Proof.
  apply (reconstruction_loss_nonneg net_reconstructing scenario_images
           scenario_input true).
  apply scenario_reconstruction_loss.
Defined.

(** X4. Whenever [loss] returns and the target entries lie between 0 and 1,
    neither part is negative and the total is at least the margin loss. *)
Theorem loss_parts_ordered (self : CapsuleNetwork) (images : tensor4)
    (input : tensor3) (target : tensor2) (size_average : bool)
    (total margin reconstruction : R) :
  entries2 in_unit_interval target ->
  loss self images input target size_average = Ok (total, margin, reconstruction) ->
  0 <= margin /\ 0 <= reconstruction /\ margin <= total.
Proof.
  intros Htarget H. rewrite loss_cases in H.
  destruct (margin_loss self input target size_average) as [m|e] eqn:Hm;
    [|discriminate].
  destruct (margin_loss_rows self input target size_average m Hm)
    as [L_c [Hmodes [_ Hentries]]].
  assert (Hm0 : 0 <= m).
  { rewrite Hmodes in Hm. injection Hm as <-.
    apply reduce_nonneg, Hentries, Htarget. }
  destruct (has_reconstruction self).
  - destruct (reconstruction_loss self images input size_average) as [r|e] eqn:Hr;
      [|discriminate].
    destruct (reconstruction_loss_rows self images input size_average r Hr)
      as [error [Hrmodes [_ Hrentries]]].
    assert (Hr0 : 0 <= r).
    { rewrite Hrmodes in Hr. injection Hr as <-.
      apply Rmult_le_pos; [apply reduce_nonneg, Hrentries | lra]. }
    injection H as <- <- <-. lra.
  - injection H as <- <- <-. lra.
Qed.

Lemma loss_parts_ordered_witness :
  0 <= margin_loss_spec scenario_input scenario_target true /\
  0 <= 0 /\
  margin_loss_spec scenario_input scenario_target true <=
  margin_loss_spec scenario_input scenario_target true.
Proof.
  apply (loss_parts_ordered net_plain scenario_images scenario_input scenario_target true).
  - exact scenario_target_in_unit_interval.
  - rewrite loss_cases, scenario_margin_loss. cbn [has_reconstruction net_plain].
    rewrite Rplus_0_r. reflexivity.
Defined.

(** X5. Whenever [reconstruction_loss] returns in sum mode, it returns in
    mean mode too, and the mean is the sum divided by the number of images,
    [images.size(0)], whatever the batch size of the capsules is. *)
Theorem reconstruction_mean_divides_by_images (self : CapsuleNetwork)
    (images : tensor4) (input : tensor3) (v : R) :
  reconstruction_loss self images input false = Ok v ->
  reconstruction_loss self images input true = Ok (v / INR (length images)).
Proof.
  intros H.
  destruct (reconstruction_loss_rows self images input false v H)
    as [error [Hmodes [Hlen _]]].
  rewrite Hmodes in H. injection H as <-. rewrite Hmodes. f_equal.
  unfold reduce, sum_dim1. rewrite length_map, Hlen. unfold Rdiv. ring.
Qed.

Lemma reconstruction_mean_divides_by_images_witness :
  reconstruction_loss net_reconstructing scenario_images scenario_input true =
  Ok (reconstruction_loss_spec
        (map (fun _ => [[[0.5; 0.5]]]) (masked_capsules scenario_input))
        scenario_images false / INR (length scenario_images)).
Proof.
  apply (reconstruction_mean_divides_by_images net_reconstructing scenario_images
           scenario_input).
  apply scenario_reconstruction_loss.
Defined.

(** X6. Whenever [margin_loss] returns in sum mode, it returns in mean mode
    too, and the mean is the sum divided by the size the two batch axes are
    broadcast to: the number of target rows, or the number of samples when
    the target has a single row. *)
Theorem margin_mean_divides_by_broadcast_batch (self : CapsuleNetwork)
    (input : tensor3) (target : tensor2) (v : R) :
  margin_loss self input target false = Ok v ->
  margin_loss self input target true =
  Ok (v / INR (broadcast_size (length target) (length input))).
Proof.
  intros H.
  destruct (margin_loss_rows self input target false v H) as [L_c [Hmodes [Hlen _]]].
  rewrite Hmodes in H. injection H as <-. rewrite Hmodes. f_equal.
  unfold reduce, sum_dim1. rewrite length_map, Hlen. reflexivity.
Qed.

Lemma margin_mean_divides_by_broadcast_batch_witness :
  margin_loss net_plain scenario_input scenario_target true =
  Ok (margin_loss_spec scenario_input scenario_target false /
      INR (broadcast_size (length scenario_target) (length scenario_input))).
Proof.
  apply (margin_mean_divides_by_broadcast_batch net_plain scenario_input scenario_target).
  apply scenario_margin_loss.
Defined.

(** ** Beyond the claims: the masking step *)

Lemma mask_capsules_returns (self : CapsuleNetwork) (input : tensor3) :
  returns (mask_capsules self input) ->
  input <> [] /\ Forall (fun s => s <> []) input.
Proof.
  intros [masked H]. split.
  - intros ->. discriminate H.
  - unfold mask_capsules, max_dim1_indices in H. rewrite v_mag_norm in H.
    bind_ok H indices Hindices.
    assert (Hrows : Forall (fun row => returns (argmax row)) (map (map norm) input)).
    { apply mapM_each_returns. exists indices. exact Hindices. }
    rewrite Forall_map in Hrows. eapply Forall_impl; [|exact Hrows].
    intros s [k Hk] ->. discriminate Hk.
Qed.

(** X7. The masking step returns exactly when the batch is not empty and
    every sample has at least one capsule; otherwise it raises. *)
Theorem mask_capsules_returns_iff (self : CapsuleNetwork) (input : tensor3) :
  returns (mask_capsules self input) <->
  input <> [] /\ Forall (fun s => s <> []) input.
Proof.
  split.
  - apply mask_capsules_returns.
  - intros [Hne Hsamples]. exists (map mask_winner input).
    apply mask_capsules_eq; assumption.
Qed.

Lemma mask_capsules_returns_iff_witness :
  returns (mask_capsules net_plain scenario_input).
Proof.
  apply (proj2 (mask_capsules_returns_iff net_plain scenario_input)).
  split; [discriminate | repeat constructor; discriminate].
Defined.

Lemma norm_nonneg (v : tensor1) : 0 <= norm v.
Proof. unfold norm. apply sqrt_pos. Qed.

Lemma sum_squares_nonneg (v : tensor1) : 0 <= sum (map pow_2 v).
Proof.
  apply sum_nonneg. rewrite Forall_map. apply Forall_forall.
  intros x _. unfold pow_2. apply pow2_ge_0.
Qed.

Lemma sum_squares_zero (v : tensor1) :
  sum (map pow_2 v) = 0 -> v = zeros (length v).
Proof.
  induction v as [|x v IH]; simpl; intros H.
  - reflexivity.
  - pose proof (sum_squares_nonneg v) as Hv.
    assert (Hx : 0 <= pow_2 x) by (unfold pow_2; apply pow2_ge_0).
    assert (Hx0 : x = 0).
    { unfold pow_2 in *. assert (x ^ 2 = 0) by lra. nra. }
    unfold zeros in *. simpl. rewrite Hx0. f_equal. apply IH. lra.
Qed.

Lemma norm_zero_zeros (v : tensor1) : norm v <= 0 -> v = zeros (length v).
Proof.
  intros H. apply sum_squares_zero. apply sqrt_eq_0.
  - apply sum_squares_nonneg.
  - pose proof (norm_nonneg v). unfold norm in *. lra.
Qed.

Lemma mask_winner_length (s : tensor2) : length (mask_winner s) = length s.
Proof.
  unfold mask_winner. rewrite zip_with_length; rewrite length_seq; reflexivity.
Qed.

Lemma mask_winner_nth_error_inv (s : tensor2) (j : nat) (u : tensor1) :
  nth_error (mask_winner s) j = Some u ->
  exists v, nth_error s j = Some v /\
            u = if (j =? winner s)%nat then v else zeros (length v).
Proof.
  intros Hu.
  assert (Hj : (j < length s)%nat).
  { rewrite <- mask_winner_length. apply nth_error_Some. rewrite Hu. discriminate. }
  destruct (nth_error s j) as [v|] eqn:Hv.
  - exists v. split; [reflexivity|].
    rewrite (mask_winner_nth_error s j v Hv) in Hu. injection Hu as <-. reflexivity.
  - apply nth_error_None in Hv. lia.
Qed.

Lemma mask_winner_idempotent (s : tensor2) :
  s <> [] -> mask_winner (mask_winner s) = mask_winner s.
Proof.
  intros Hne. apply nth_error_ext. intros j.
  destruct (nth_error (mask_winner s) j) as [u|] eqn:Hu.
  2:{ apply nth_error_None. rewrite mask_winner_length. apply nth_error_None. exact Hu. }
  rewrite (mask_winner_nth_error (mask_winner s) j u Hu).
  destruct (Nat.eqb_spec j (winner (mask_winner s))) as [|Hj]; [reflexivity|].
  f_equal.
  destruct (mask_winner_nth_error_inv s j u Hu) as [v [Hv ->]].
  destruct (Nat.eqb_spec j (winner s)) as [Hjs|_].
  2:{ unfold zeros. rewrite repeat_length. reflexivity. }
  symmetry. apply norm_zero_zeros.
  assert (Hmne : map norm (mask_winner s) <> []).
  { intros Hnil. apply (f_equal (@length R)) in Hnil.
    rewrite length_map, mask_winner_length in Hnil.
    destruct s; [congruence | discriminate]. }
  destruct (argmax_index_first_max _ Hmne) as [M [HM [Hmax _]]].
  fold (winner (mask_winner s)) in HM.
  assert (HM0 : M = 0).
  { rewrite nth_error_map in HM.
    destruct (nth_error (mask_winner s) (winner (mask_winner s))) as [w|] eqn:Hw;
      [|discriminate].
    simpl in HM. injection HM as <-.
    destruct (mask_winner_nth_error_inv s _ w Hw) as [v' [_ ->]].
    destruct (Nat.eqb_spec (winner (mask_winner s)) (winner s)) as [Heq|_];
      [congruence | apply norm_zeros]. }
  rewrite <- HM0. apply (Hmax j).
  rewrite nth_error_map, Hu. reflexivity.
Qed.

(** X8. Masking is idempotent: masking the masked capsules again returns
    them unchanged. *)
Theorem masking_idempotent (self : CapsuleNetwork) (input masked : tensor3) :
  mask_capsules self input = Ok masked ->
  mask_capsules self masked = Ok masked.
Proof.
  intros H.
  destruct (mask_capsules_returns self input) as [Hne Hsamples];
    [exists masked; exact H|].
  rewrite (mask_capsules_eq self input Hne Hsamples) in H. injection H as <-.
  rewrite mask_capsules_eq.
  - f_equal. rewrite map_map. apply map_ext_in. intros s Hs.
    apply mask_winner_idempotent. rewrite Forall_forall in Hsamples.
    apply Hsamples. exact Hs.
  - destruct input; [congruence | discriminate].
  - rewrite Forall_map. eapply Forall_impl; [|exact Hsamples].
    intros s Hs Hnil. apply (f_equal (@length (list R))) in Hnil.
    rewrite mask_winner_length in Hnil. destruct s; [congruence | discriminate].
Qed.

Lemma masking_idempotent_witness :
  mask_capsules net_plain [[[0]; [0.95]; [0]]] = Ok [[[0]; [0.95]; [0]]].
Proof.
  apply (masking_idempotent net_plain [[[0.3]; [0.95]; [0.1]]]).
  apply masking_second_of_three.
Defined.

(** ** Beyond the claims: empty batches and batches put together *)

(** X9. An empty batch is an error everywhere: [margin_loss] and [loss]
    raise the tensor library's RuntimeError (the second size of
    [view(0, -1)] cannot be inferred), and on a network with reconstruction
    so do [reconstruct] and [reconstruction_loss] ([torch.stack] of an empty
    list). *)
Theorem empty_batch_raises (self : CapsuleNetwork) (images : tensor4)
    (target : tensor2) (size_average : bool) :
  raises_RuntimeError (margin_loss self [] target size_average) /\
  raises_RuntimeError (loss self images [] target size_average) /\
  (has_reconstruction self = true ->
   raises_RuntimeError (reconstruct self []) /\
   raises_RuntimeError (reconstruction_loss self images [] size_average)).
Proof.
  assert (Hmargin : raises_RuntimeError (margin_loss self [] target size_average)).
  { eexists. reflexivity. }
  split; [exact Hmargin|]. split.
  - destruct Hmargin as [msg Hmsg]. exists msg.
    rewrite loss_cases, Hmsg. reflexivity.
  - intros Hrec.
    assert (Hreconstruct : raises_RuntimeError (reconstruct self [])).
    { unfold reconstruct. rewrite Hrec. eexists. reflexivity. }
    split; [exact Hreconstruct|].
    destruct Hreconstruct as [msg Hmsg]. exists msg.
    unfold reconstruction_loss. rewrite Hmsg. reflexivity.
Qed.

Lemma empty_batch_raises_witness :
  raises_RuntimeError (reconstruct net_reconstructing []) /\
  raises_RuntimeError (reconstruction_loss net_reconstructing scenario_images [] true).
Proof.
  apply (proj2 (proj2 (empty_batch_raises net_reconstructing scenario_images
                         scenario_target true))).
  reflexivity.
Defined.

Lemma sum_app (a b : list R) : sum (a ++ b) = sum a + sum b.
Proof.
  induction a as [|x a IH]; simpl.
  - lra.
  - rewrite IH. lra.
Qed.

Lemma has_shape2_app (a b : tensor2) (m m' n : nat) :
  has_shape2 a m n = true -> has_shape2 b m' n = true ->
  has_shape2 (a ++ b) (m + m') n = true.
Proof.
  rewrite !has_shape2_spec. intros [Hla Hfa] [Hlb Hfb]. split.
  - rewrite length_app, Hla, Hlb. reflexivity.
  - apply Forall_app. split; assumption.
Qed.

(** X10. In sum mode the margin loss of two batches put together is the sum
    of their margin losses: the samples do not influence one another. *)
Theorem margin_loss_sum_of_batches (self : CapsuleNetwork)
    (input1 input2 : tensor3) (target1 target2 : tensor2)
    (batch1 batch2 n d : nat) (v1 v2 : R) :
  has_shape3 input1 batch1 n d = true -> has_shape2 target1 batch1 n = true ->
  has_shape3 input2 batch2 n d = true -> has_shape2 target2 batch2 n = true ->
  margin_loss self input1 target1 false = Ok v1 ->
  margin_loss self input2 target2 false = Ok v2 ->
  margin_loss self (input1 ++ input2) (target1 ++ target2) false = Ok (v1 + v2).
Proof.
  intros Hi1 Ht1 Hi2 Ht2 H1 H2.
  assert (Hne1 : input1 <> []) by (intros ->; discriminate H1).
  assert (Hne2 : input2 <> []) by (intros ->; discriminate H2).
  pose proof (has_shape3_rows input1 batch1 n d Hi1) as [Hl1 Hrows1].
  pose proof (has_shape3_rows input2 batch2 n d Hi2) as [Hl2 Hrows2].
  rewrite (margin_loss_eq self input1 target1 false n Hne1 Hrows1) in H1
    by (rewrite Hl1; exact Ht1).
  rewrite (margin_loss_eq self input2 target2 false n Hne2 Hrows2) in H2
    by (rewrite Hl2; exact Ht2).
  injection H1 as <-. injection H2 as <-.
  rewrite (margin_loss_eq self (input1 ++ input2) (target1 ++ target2) false n).
  - f_equal. unfold margin_loss_spec, reduce.
    apply has_shape2_spec in Ht1 as [Hlt1 _].
    rewrite zip_with_app by congruence. apply sum_app.
  - destruct input1; [congruence | discriminate].
  - apply Forall_app. split; assumption.
  - rewrite length_app, Hl1, Hl2. apply has_shape2_app; assumption.
Qed.

Lemma margin_loss_sum_of_batches_witness :
  margin_loss net_plain (scenario_input ++ second_input)
    (scenario_target ++ second_target) false =
  Ok (margin_loss_spec scenario_input scenario_target false +
      margin_loss_spec second_input second_target false).
Proof.
  apply (margin_loss_sum_of_batches net_plain scenario_input second_input
           scenario_target second_target 1 1 2 1); try reflexivity.
  - apply scenario_margin_loss.
  - apply (margin_loss_eq net_plain second_input second_target false 2).
    + discriminate.
    + repeat constructor.
    + reflexivity.
Defined.

(** ** Beyond the claims: a target with a single row *)

Lemma broadcast_left_singleton {A B C : Type} (f : A -> B -> result C)
    (x : A) (b : list B) :
  broadcast f [x] b = mapM (f x) b.
Proof.
  destruct b as [|y [|y' b]]; reflexivity.
Qed.

Lemma broadcast2_single_row (f : R -> R -> R) (T : tensor1) (t : tensor2) (n : nat) :
  length T = n ->
  Forall (fun r => length r = n) t ->
  broadcast2 f [T] t = Ok (map (zip_with f T) t).
Proof.
  intros HT Ht. unfold broadcast2. rewrite broadcast_left_singleton.
  apply mapM_map. intros r Hr. apply broadcast1_same.
  rewrite Forall_forall in Ht. rewrite HT, (Ht r Hr). reflexivity.
Qed.

Lemma zip_with_diagonal {A B C D : Type} (f : B -> C -> D) (g : A -> B) (h : A -> C)
    (l : list A) :
  zip_with f (map g l) (map h l) = map (fun x => f (g x) (h x)) l.
Proof.
  induction l as [|x l IH]; [reflexivity|].
  simpl map. rewrite zip_with_cons, IH. reflexivity.
Qed.

Lemma Forall_rows_map {A : Type} (g : list A -> tensor1) (t : list (list A)) (n : nat) :
  (forall s, length s = n -> length (g s) = n) ->
  Forall (fun s => length s = n) t ->
  Forall (fun r => length r = n) (map g t).
Proof.
  intros Hg Ht. rewrite Forall_map. eapply Forall_impl; [|exact Ht]. exact Hg.
Qed.

Lemma rows_of_length {A : Type} (g : list A -> tensor1) (t : list (list A)) (n : nat) :
  (forall s, length s = n -> length (g s) = n) ->
  Forall (fun s => length s = n) t ->
  has_shape2 (map g t) (length t) n = true.
Proof.
  intros Hg Ht. apply has_shape2_spec. split; [apply length_map|].
  rewrite Forall_map. eapply Forall_impl; [|exact Ht]. exact Hg.
Qed.

(** X11. A target with a single row is not rejected when the batch has
    several samples: the row is used as the target of every sample, and the
    loss is the reduction of the samples' losses against that one row. *)
Theorem margin_loss_single_row_target (self : CapsuleNetwork) (input : tensor3)
    (T : tensor1) (size_average : bool) (batch n d : nat) :
  has_shape3 input batch n d = true ->
  (0 < batch)%nat ->
  length T = n ->
  margin_loss self input [T] size_average =
  Ok (reduce size_average (map (fun capsules => sample_loss capsules T) input)).
Proof.
  intros Hinput Hbatch HT.
  pose proof (has_shape3_nonempty input batch n d Hbatch Hinput) as Hne.
  apply has_shape3_rows in Hinput as [_ Hrows].
  rewrite (margin_loss_hinges self input [T] size_average n Hne Hrows).
  unfold mul2, add2, map2d. cbn [map]. rewrite !map_map.
  rewrite (broadcast2_single_row Rmult T _ n HT)
    by (apply Forall_rows_map;
        [intros s Hs; rewrite !length_map; exact Hs | exact Hrows]).
  cbn [bind].
  rewrite (broadcast2_single_row Rmult _ _ n)
    by (first [ rewrite length_map; exact HT
              | apply Forall_rows_map;
                [intros s Hs; rewrite !length_map; exact Hs | exact Hrows] ]).
  cbn [bind]. rewrite !map_map.
  rewrite (broadcast2_same Rplus _ _ (length input) n).
  - cbn [bind]. do 2 f_equal. rewrite zip_with_diagonal.
    unfold sum_dim1. rewrite map_map. apply map_ext. intros s.
    unfold sample_loss. f_equal.
    rewrite <- class_losses_row. rewrite !map_map. reflexivity.
  - apply rows_of_length; [|exact Hrows]. intros s Hs.
    rewrite zip_with_length; rewrite ?length_map; congruence.
  - apply rows_of_length; [|exact Hrows]. intros s Hs.
    rewrite zip_with_length; rewrite ?length_map; congruence.
Qed.

Lemma margin_loss_single_row_target_witness :
  margin_loss net_plain (scenario_input ++ second_input) [[1; 0]] true =
  Ok (reduce true (map (fun capsules => sample_loss capsules [1; 0])
                     (scenario_input ++ second_input))).
Proof.
  apply (margin_loss_single_row_target net_plain (scenario_input ++ second_input)
           [1; 0] true 2 2 1); [reflexivity | lia | reflexivity].
Defined.

(** ** Beyond the claims: when the margin loss vanishes *)

Lemma class_loss_nonneg (T_c v_mag : R) :
  in_unit_interval T_c -> 0 <= class_loss T_c v_mag.
Proof.
  intros [H0 H1]. unfold class_loss.
  apply Rplus_le_le_0_compat.
  - apply Rmult_le_pos; [exact H0 | apply pow2_ge_0].
  - apply Rmult_le_pos; [lra | apply pow2_ge_0].
Qed.

Lemma class_loss_present_only_if (v_mag : R) : class_loss 1 v_mag = 0 -> 0.9 <= v_mag.
Proof.
  unfold class_loss, Rmax. intros H.
  destruct (Rle_dec 0 (0.9 - v_mag)) as [Hle|Hgt]; [|lra].
  assert (Hsq : (0.9 - v_mag) ^ 2 = 0) by lra. nra.
Qed.

Lemma class_loss_absent_only_if (v_mag : R) : class_loss 0 v_mag = 0 -> v_mag <= 0.1.
Proof.
  unfold class_loss, Rmax. intros H.
  destruct (Rle_dec 0 (v_mag - 0.1)) as [Hle|Hgt]; [|lra].
  assert (Hsq : (v_mag - 0.1) ^ 2 = 0) by lra. nra.
Qed.

Lemma sum_zero_each (l : list R) :
  Forall (fun x => 0 <= x) l -> sum l = 0 -> Forall (fun x => x = 0) l.
Proof.
  induction 1 as [|x l Hx Hl IH]; simpl; intros H.
  - constructor.
  - pose proof (sum_nonneg l Hl). constructor; [lra | apply IH; lra].
Qed.

Lemma one_hot_in_unit_interval (n c : nat) : Forall in_unit_interval (one_hot n c).
Proof.
  unfold one_hot. rewrite Forall_map. apply Forall_forall. intros j _.
  unfold in_unit_interval. destruct (j =? c)%nat; lra.
Qed.

Lemma one_hot_length (n c : nat) : length (one_hot n c) = n.
Proof. unfold one_hot. rewrite length_map. apply length_seq. Qed.

Lemma class_losses_nonneg (capsules : tensor2) (T : tensor1) :
  Forall in_unit_interval T ->
  Forall (fun x => 0 <= x)
    (zip_with (fun v T_c => class_loss T_c (norm v)) capsules T).
Proof.
  intros HT. unfold zip_with. rewrite Forall_map, Forall_forall. intros [v t] Hin.
  simpl. apply class_loss_nonneg. rewrite Forall_forall in HT.
  apply HT. eapply in_combine_r. exact Hin.
Qed.

Lemma nth_error_zip_with {A B C : Type} (f : A -> B -> C) (a : list A) (b : list B)
    (j : nat) (x : A) (y : B) :
  nth_error a j = Some x -> nth_error b j = Some y ->
  nth_error (zip_with f a b) j = Some (f x y).
Proof.
  revert b j. induction a as [|x0 a IH]; intros [|y0 b] [|j] Ha Hb;
    simpl in Ha, Hb; try discriminate.
  - injection Ha as ->. injection Hb as ->. reflexivity.
  - rewrite zip_with_cons. simpl. apply IH; assumption.
Qed.

Lemma sample_loss_zero_only_if (n c : nat) (capsules : tensor2) :
  length capsules = n -> (c < n)%nat ->
  sample_loss capsules (one_hot n c) = 0 ->
  margins_met n capsules (one_hot n c).
Proof.
  intros Hlen Hc Hzero. exists c. split; [exact Hc|]. split; [reflexivity|].
  intros j v Hv.
  assert (Hj : (j < n)%nat).
  { rewrite <- Hlen. apply nth_error_Some. rewrite Hv. discriminate. }
  assert (Ht : nth_error (one_hot n c) j = Some (if (j =? c)%nat then 1 else 0)).
  { unfold one_hot.
    rewrite nth_error_map, nth_error_seq.
    apply Nat.ltb_lt in Hj. rewrite Hj. reflexivity. }
  pose proof (sum_zero_each _ (class_losses_nonneg capsules (one_hot n c)
                                 (one_hot_in_unit_interval n c)) Hzero) as Heach.
  rewrite Forall_forall in Heach.
  assert (Hclass : class_loss (if (j =? c)%nat then 1 else 0) (norm v) = 0).
  { apply Heach. apply (nth_error_In _ j).
    apply (nth_error_zip_with (fun v T_c => class_loss T_c (norm v))
             capsules (one_hot n c) j v _ Hv Ht). }
  destruct (j =? c)%nat.
  - apply class_loss_present_only_if. exact Hclass.
  - apply class_loss_absent_only_if. exact Hclass.
Qed.

Lemma sample_loss_nonneg (capsules : tensor2) (T : tensor1) :
  Forall in_unit_interval T -> 0 <= sample_loss capsules T.
Proof.
  intros HT. unfold sample_loss. apply sum_nonneg, class_losses_nonneg, HT.
Qed.

Lemma samples_meet_margins (n : nat) (input : tensor3) (target : tensor2) :
  length input = length target ->
  Forall (fun s => length s = n) input ->
  one_hot_rows n target ->
  Forall (fun x => x = 0) (zip_with sample_loss input target) ->
  Forall2 (margins_met n) input target.
Proof.
  revert target. induction input as [|s input IH]; intros [|T target] Hlen Hrows Hhot Hzero;
    simpl in Hlen; try discriminate.
  - constructor.
  - rewrite zip_with_cons in Hzero.
    apply Forall_cons_iff in Hzero as [Hs Hzero].
    apply Forall_cons_iff in Hrows as [Hsn Hrows].
    apply Forall_cons_iff in Hhot as [[c [Hc ->]] Hhot].
    constructor.
    + apply sample_loss_zero_only_if; assumption.
    + apply IH; try assumption. lia.
Qed.

(** X12. For one-hot targets the margin loss is zero only if every sample
    meets both margins: the converse of C2. *)
Theorem margin_loss_zero_only_if (self : CapsuleNetwork) (input : tensor3)
    (target : tensor2) (size_average : bool) (batch n d : nat) :
  has_shape3 input batch n d = true ->
  has_shape2 target batch n = true ->
  (0 < batch)%nat ->
  one_hot_rows n target ->
  margin_loss self input target size_average = Ok 0 ->
  Forall2 (margins_met n) input target.
Proof.
  intros Hinput Htarget Hbatch Hhot H.
  pose proof (has_shape3_nonempty input batch n d Hbatch Hinput) as Hne.
  apply has_shape3_rows in Hinput as [Hl Hrows].
  pose proof Htarget as Htarget'. apply has_shape2_spec in Htarget' as [Hlt _].
  rewrite <- Hl in Htarget.
  rewrite (margin_loss_eq self input target size_average n Hne Hrows Htarget) in H.
  injection H as H. unfold margin_loss_spec in H.
  assert (Hnonneg : Forall (fun x => 0 <= x) (zip_with sample_loss input target)).
  { unfold zip_with. rewrite Forall_map, Forall_forall. intros [s T] Hin. simpl.
    apply sample_loss_nonneg.
    unfold one_hot_rows in Hhot. rewrite Forall_forall in Hhot.
    destruct (Hhot T (in_combine_r _ _ _ _ Hin)) as [c [_ ->]].
    apply one_hot_in_unit_interval. }
  assert (Hsum : sum (zip_with sample_loss input target) = 0).
  { unfold reduce in H. destruct size_average; [|exact H].
    rewrite zip_with_length in H by congruence. rewrite Hl in H.
    assert (HB : 0 < INR batch) by (apply lt_0_INR; exact Hbatch).
    unfold Rdiv in H. apply Rmult_integral in H as [H|H]; [exact H|].
    pose proof (Rinv_0_lt_compat _ HB). lra. }
  apply samples_meet_margins; try assumption.
  - congruence.
  - apply sum_zero_each; assumption.
Qed.

Lemma margin_loss_zero_only_if_witness :
  Forall2 (margins_met 2) scenario_input scenario_target.
Proof.
  apply (margin_loss_zero_only_if net_plain scenario_input scenario_target true 1 2 1);
    try reflexivity; try lia.
  - repeat constructor. exists O. split; [lia | reflexivity].
  - rewrite scenario_margin_loss. f_equal. unfold margin_loss_spec.
    apply reduce_zeros. repeat constructor.
    apply (sample_loss_zero 2). exact scenario_margins_met.
Defined.

(** ** Beyond the claims: what the decoder receives and gives back *)

(** X13. On a network with reconstruction, [reconstruct] hands the decoder a
    matrix of shape [batch, n * d], one flattened masked sample per row,
    and returns exactly what the decoder returns on it, value or exception. *)
Theorem reconstruct_feeds_decoder (self : CapsuleNetwork) (dec : Decoder)
    (input : tensor3) (batch n d : nat) :
  has_reconstruction self = true ->
  decoder self = Some dec ->
  has_shape3 input batch n d = true ->
  (0 < batch)%nat -> (0 < n)%nat ->
  reconstruct self input = Decoder_forward dec (masked_capsules input) /\
  has_shape2 (masked_capsules input) batch (n * d) = true.
Proof.
  intros Hrec Hdec Hinput Hbatch Hn. split.
  - apply (reconstruct_eq self dec input batch n d); assumption.
  - apply has_shape3_spec in Hinput as [Hl Hs].
    apply has_shape2_spec. unfold masked_capsules. split.
    + rewrite length_map. exact Hl.
    + rewrite Forall_map. eapply Forall_impl; [|exact Hs].
      intros s Hshape. simpl. apply length_flatten2, mask_winner_shape. exact Hshape.
Qed.

Lemma reconstruct_feeds_decoder_witness :
  reconstruct net_reconstructing scenario_input =
    Decoder_forward flat_decoder (masked_capsules scenario_input) /\
  has_shape2 (masked_capsules scenario_input) 1 (2 * 1) = true.
Proof.
  apply (reconstruct_feeds_decoder net_reconstructing flat_decoder scenario_input 1 2 1);
    try reflexivity; lia.
Defined.







Lemma squared_error_same (image : tensor3) : squared_error image image = 0.
Proof.
  unfold squared_error. apply sum_zeros.
  unfold zip_with. rewrite Forall_map, Forall_forall. intros [x y] Hin. simpl.
  assert (Hxy : x = y).
  { clear -Hin. induction (flatten3 image) as [|z l IH]; simpl in Hin; [tauto|].
    destruct Hin as [Heq|Hin]; [injection Heq as <- <-; reflexivity | apply IH, Hin]. }
  subst y. lra.
Qed.

(** X15. A reconstruction that reproduces the images exactly costs nothing:
    the reconstruction loss is then 0 under either reduction mode. *)
Theorem perfect_reconstruction_is_free (self : CapsuleNetwork) (images : tensor4)
    (input : tensor3) (size_average : bool) (batch c h w : nat) :
  has_shape4 images batch c h w = true ->
  (0 < batch)%nat ->
  reconstruct self input = Ok images ->
  reconstruction_loss self images input size_average = Ok 0.
Proof.
  intros Hshape Hbatch Hrec.
  rewrite (reconstruction_loss_eq self images images input size_average batch c h w);
    try assumption.
  f_equal. unfold reconstruction_loss_spec.
  rewrite reduce_zeros; [lra|].
  unfold zip_with. rewrite Forall_map, Forall_forall. intros [x y] Hin. simpl.
  assert (Hxy : x = y).
  { clear -Hin. induction images as [|z l IH]; simpl in Hin; [tauto|].
    destruct Hin as [Heq|Hin]; [injection Heq as <- <-; reflexivity | apply IH, Hin]. }
  subst y. apply squared_error_same.
Qed.

Lemma perfect_reconstruction_is_free_witness :
  reconstruction_loss net_reconstructing [[[[0.5; 0.5]]]] scenario_input true = Ok 0.
Proof.
  apply (perfect_reconstruction_is_free net_reconstructing [[[[0.5; 0.5]]]]
           scenario_input true 1 1 1 2); try reflexivity; [lia|].
  rewrite (reconstruct_eq net_reconstructing flat_decoder scenario_input 1 2 1);
    try reflexivity; lia.
Defined.

(** X16. Masking treats the samples one by one: the masked capsules of two
    batches put together are the masked capsules of the first followed by
    those of the second. *)
Theorem masking_of_batches (self : CapsuleNetwork) (input1 input2 masked1 masked2 : tensor3) :
  mask_capsules self input1 = Ok masked1 ->
  mask_capsules self input2 = Ok masked2 ->
  mask_capsules self (input1 ++ input2) = Ok (masked1 ++ masked2).
Proof.
  intros H1 H2.
  destruct (mask_capsules_returns self input1) as [Hne1 Hs1]; [exists masked1; exact H1|].
  destruct (mask_capsules_returns self input2) as [Hne2 Hs2]; [exists masked2; exact H2|].
  rewrite (mask_capsules_eq self input1 Hne1 Hs1) in H1. injection H1 as <-.
  rewrite (mask_capsules_eq self input2 Hne2 Hs2) in H2. injection H2 as <-.
  rewrite <- map_app. apply mask_capsules_eq.
  - destruct input1; [congruence | discriminate].
  - apply Forall_app. split; assumption.
Qed.

Lemma masking_of_batches_witness :
  mask_capsules net_plain ([[[0.3]; [0.95]; [0.1]]] ++ [[[0.5]; [0.5]]]) =
  Ok ([[[0]; [0.95]; [0]]] ++ [[[0.5]; [0]]]).
Proof.
  apply (masking_of_batches net_plain).
  - apply masking_second_of_three.
  - apply masking_tie.
Defined.
